(** * JudgeInterface.abstract: the table-backed CRUD contract

    A shallow embedding of [AbstractInterface] (src/JudgeInterface/abstract.py)
    and the properties of its four operations [perform_create],
    [perform_retrieve], [perform_update] and [perform_delete].

    The class is bound to one DB-API cursor ([self.cur]) and to the schema
    attributes a subclass declares.  Every method is a sequence of calls on
    that cursor, possibly cut short by [raise]; it is embedded as a function
    from the cursor's state to an outcome and the cursor's next state.

    The hooks [create], [retrieve], [update] and [delete] hand their
    arguments to the [perform_] methods and return what these return; the
    development is about the [perform_] methods, with the keyword arguments
    as Python has bound them to their double-starred parameter. *)

From Stdlib Require Import ZArith.
From stdpp Require Import gmap strings list fin_maps.

Local Open Scope string_scope.
Local Open Scope list_scope.

(** ** Python values and dictionaries *)

(** The values that travel through the interface: column values given by the
    caller, parameters handed to the cursor, the cursor's [lastrowid]. *)
Inductive pyval : Type :=
  | PyNone
  | PyInt (z : Z)
  | PyStr (s : string).

#[global] Instance pyval_eq_dec : EqDecision pyval.
Proof. solve_decision. Defined.

(** Keyword arguments ([**data], [**where_kwargs]) arrive as a dict in the
    order the caller wrote them, one entry per keyword. *)
Abbreviation kwargs := (list (string * pyval)).

(** A dict built by the interface or yielded by the cursor; Python compares
    dicts by content, which is the equality of [gmap]. *)
Abbreviation pydict := (gmap string pyval).

Module Dict.

(** [list(data.keys())] *)
Definition keys (data : kwargs) : list string := data.*1.

(** [key in data], as a proposition; it is decidable, so it can guard a
    comprehension. *)
Definition contains (data : kwargs) (key : string) : Prop := key ∈ keys data.

#[global] Instance contains_dec data key : Decision (contains data key).
Proof. unfold contains. apply _. Defined.

(** The entry stored under [key], if any. *)
Fixpoint lookup (key : string) (data : kwargs) : option pyval :=
  match data with
  | [] => None
  | (k, v) :: rest => if decide (k = key) then Some v else lookup key rest
  end.

(** [data.get(key)]: the value, [None] when the key is missing. *)
Definition get (data : kwargs) (key : string) : pyval :=
  default PyNone (lookup key data).

(** [{key: f(key) for key in fields}] *)
Definition comprehension (f : string → pyval) (fields : list string) : pydict :=
  list_to_map ((λ key, (key, f key)) <$> fields).

End Dict.

(** ** The schema a subclass declares *)

Record Schema : Type := {
  table_name : string;
  create_fields : list string;
  retrieve_fields : list string;
  update_fields : list string;
}.

(** ** The cursor *)

(** One [execute] call: the statement and the parameter tuple, [None] when
    [execute] was called with the statement alone. *)
Definition call : Type := string * option (list pyval).

(** What the database answers to a statement it accepts. *)
Record reply : Type := Reply {
  reply_lastrowid : pyval;
  reply_rowcount : Z;
  reply_rows : list pydict;
}.

(** The database behind the cursor: it rejects a statement with a message or
    answers it and moves to its next state. *)
Class Database (S : Type) : Type :=
  run : string → option (list pyval) → S → string + reply * S.

(** The cursor [self.cur]: the connection's state, the attributes the DB-API
    exposes after [execute], the rows not yet yielded by iteration, and (as a
    ghost field) every statement it was asked to execute, oldest first. *)
Record Cursor (S : Type) : Type := MkCursor {
  db : S;
  lastrowid : pyval;
  rowcount : Z;
  result_set : list pydict;
  executed : list call;
}.
Arguments MkCursor {S}.
Arguments db {S}.
Arguments lastrowid {S}.
Arguments rowcount {S}.
Arguments result_set {S}.
Arguments executed {S}.

(** ** Exceptions and the method monad *)

Inductive exn : Type :=
  (** [AttributeError(f'{str(unknown_fields)} field(s) is(are) not allowed')]:
      the text is the printed set followed by a fixed suffix, so the exception
      is identified by the set of names. *)
  | AttributeError (unknown_fields : gset string)
  (** an exception raised by the connector inside [execute] *)
  | DatabaseError (msg : string).

Inductive outcome (A : Type) : Type :=
  | Return (a : A)
  | Raise (e : exn).
Arguments Return {A}.
Arguments Raise {A}.

(** A method body: it runs on the cursor and leaves it in a new state, also
    when it raises. *)
Definition M (S A : Type) : Type := Cursor S → outcome A * Cursor S.

Definition ret {S A} (a : A) : M S A := λ cur, (Return a, cur).

Definition raise {S A} (e : exn) : M S A := λ cur, (Raise e, cur).

Definition bind {S A B} (m : M S A) (k : A → M S B) : M S B :=
  λ cur, match m cur with
         | (Return a, cur') => k a cur'
         | (Raise e, cur') => (Raise e, cur')
         end.

Notation "'do' x <- m ; k" := (bind m (λ x, k))
  (at level 10, x name, m at level 100, k at level 200,
   format "'[v' 'do'  x  <-  m ; '/' k ']'").
Notation "'do_' m ; k" := (bind m (λ _, k))
  (at level 10, m at level 100, k at level 200,
   format "'[v' 'do_'  m ; '/' k ']'").

Section CursorOps.
Context {S : Type} `{Database S}.

(** [self.cur.execute(query, params)] / [self.cur.execute(query)] *)
Definition execute (query : string) (params : option (list pyval)) : M S unit :=
  λ cur,
    let log := executed cur ++ [(query, params)] in
    match run query params (db cur) with
    | inl msg =>
        (Raise (DatabaseError msg),
         MkCursor (db cur) (lastrowid cur) (rowcount cur) (result_set cur) log)
    | inr (r, s') =>
        (Return (),
         MkCursor s' (reply_lastrowid r) (reply_rowcount r) (reply_rows r) log)
    end.

(** [self.cur.lastrowid] *)
Definition get_lastrowid : M S pyval := λ cur, (Return (lastrowid cur), cur).

(** [next(self.cur)]: the next row of the result set, [None] at its end
    (where Python raises [StopIteration] and the [for] loop stops). *)
Definition next : M S (option pydict) :=
  λ cur,
    match result_set cur with
    | [] => (Return None, cur)
    | t :: rest =>
        (Return (Some t),
         MkCursor (db cur) (lastrowid cur) (rowcount cur) rest (executed cur))
    end.

End CursorOps.

(** ** Statement text *)

(** The line break and the twelve blanks that the triple-quoted statements of
    [perform_create], [perform_update] and [perform_delete] carry at the start
    of every line. *)
Definition nl : string := String (Ascii.ascii_of_nat 10) EmptyString.
Definition indent : string := "            ".

(** [', '.join(fields)] *)
Definition join (sep : string) (fields : list string) : string :=
  String.concat sep fields.

(** [JudgeInterface.lib.placeholder.Placeholder]: the four renderers of
    parameter marks that abstract.py imports.  They live in
    lib/placeholder.py, outside abstract.py, and may differ per database
    dialect, so the interface is written against any implementation of
    them. *)
Class Placeholder : Type := {
  for_create_query : nat → string;
  for_select_query : list string → string;
  for_where_query : list string → string;
  for_update_query : list string → kwargs → string;
}.

(** Modelled from the spec: [Placeholder.for_create_query] of
    lib/placeholder.py, "the parameter placeholder syntax for N positional
    insert values", "one positional placeholder per value".  The mark is the
    [?] that abstract.py itself writes in [WHERE id = ?]. *)
Definition spec_for_create_query (n : nat) : string :=
  join ", " (replicate n "?").

(** Modelled from the spec: [Placeholder.for_select_query] of
    lib/placeholder.py, "a projection column list for SELECT", "projecting
    exactly the validated (possibly defaulted) field list". *)
Definition spec_for_select_query (fields : list string) : string :=
  join ", " fields.

(** Modelled from the spec: [Placeholder.for_where_query] of
    lib/placeholder.py, "a conjunction of equality predicates for WHERE",
    "in the filters' key order, with one positional parameter per filter
    value". *)
Definition spec_for_where_query (keys : list string) : string :=
  join " AND " ((λ key, key +:+ " = ?") <$> keys).

(** Modelled from the spec: [Placeholder.for_update_query] of
    lib/placeholder.py, "a SET clause listing update columns": of the
    declared update fields, "only the input fields present", "setting exactly
    those columns (order preserved)". *)
Definition spec_for_update_query (fields : list string) (data : kwargs) : string :=
  join ", " ((λ key, key +:+ " = ?") <$> filter (Dict.contains data) fields).

(** Modelled from the spec: the class [Placeholder] of lib/placeholder.py,
    made of the four renderers above. *)
Definition spec_placeholder : Placeholder := {|
  for_create_query := spec_for_create_query;
  for_select_query := spec_for_select_query;
  for_where_query := spec_for_where_query;
  for_update_query := spec_for_update_query;
|}.

(** ** AbstractInterface *)

(** What a method hands back for one record: the plain dict, or the instance
    that [return_type] built from it when called with the dict's entries as
    keyword arguments. *)
Inductive shaped (T : Type) : Type :=
  | Plain (d : pydict)
  | Built (x : T).
Arguments Plain {T}.
Arguments Built {T}.

Section AbstractInterface.
Context {S : Type} `{Database S} `{Placeholder}.

(** [for t in self.cur: lst = body(t, lst)]: rows are taken with [next]
    until the cursor has none left.  Each turn takes one row away, so one
    more turn than there are rows is always enough. *)
Fixpoint for_rows {A} (turns : nat) (body : pydict → A → A) (lst : A) : M S A :=
  match turns with
  | O => ret lst
  | Datatypes.S turns' =>
      do t <- next;
      match t with
      | None => ret lst
      | Some t => for_rows turns' body (body t lst)
      end
  end.

Definition for_in_cur {A} (body : pydict → A → A) (lst : A) : M S A :=
  λ cur, for_rows (Datatypes.S (length (result_set cur))) body lst cur.

Variable self : Schema.

Definition insert_statement (query_fields : string) (marks : string) : string :=
  nl +:+ indent +:+ "INSERT INTO" +:+
  nl +:+ indent +:+ table_name self +:+ "(" +:+ query_fields +:+ ")" +:+
  nl +:+ indent +:+ "VALUES(" +:+ marks +:+ ")" +:+
  nl +:+ indent.

Definition perform_create {T} (return_type : option (pydict → T))
    (data : kwargs) : M S (shaped T) :=
  let keys : gset string := list_to_set (Dict.keys data) in
  let unknown_fields := keys ∖ list_to_set (create_fields self) in
  if decide (0 < size unknown_fields) then
    raise (AttributeError unknown_fields)
  else
    let valid_fields := filter (Dict.contains data) (create_fields self) in
    let query_fields := join ", " valid_fields in
    let fields_values :=
      Dict.get data <$> filter (Dict.contains data) (create_fields self) in
    do_ execute
          (insert_statement query_fields
             (for_create_query (length fields_values)))
          (Some fields_values);
    let context := Dict.comprehension (Dict.get data) (retrieve_fields self) in
    do id <- get_lastrowid;
    let context := <["id" := id]> context in
    match return_type with
    | Some return_type => ret (Built (return_type context))
    | None => ret (Plain context)
    end.

Definition perform_retrieve {T} (return_type : option (pydict → T))
    (project_fields : list string) (where_kwargs : kwargs)
    : M S (list (shaped T)) :=
  let unknown_fields : gset string :=
    list_to_set project_fields ∖ list_to_set (retrieve_fields self) in
  if decide (0 < size unknown_fields) then
    raise (AttributeError unknown_fields)
  else
    let project_fields :=
      if decide (length project_fields ≤ 0)%nat then retrieve_fields self
      else project_fields in
    let unknown_where_fields : gset string :=
      list_to_set (Dict.keys where_kwargs)
        ∖ list_to_set (retrieve_fields self) in
    if decide (0 < size unknown_where_fields) then
      raise (AttributeError unknown_where_fields)
    else
      let project_placeholder := for_select_query project_fields in
      let query :=
        "SELECT " +:+ project_placeholder +:+ nl +:+
        "FROM " +:+ table_name self in
      let where_keys := Dict.keys where_kwargs in
      do_ (if decide (0 < length where_keys) then
             let where_placeholder := for_where_query where_keys in
             let query := query +:+ nl +:+ "WHERE " +:+ where_placeholder in
             let where_values := Dict.get where_kwargs <$> where_keys in
             execute query (Some where_values)
           else
             execute query None);
      match return_type with
      | Some return_type =>
          for_in_cur (λ t lst, lst ++ [Built (return_type t)]) []
      | None =>
          for_in_cur (λ t lst, lst ++ [Plain t]) []
      end.

Definition update_statement (assignments : string) : string :=
  nl +:+ indent +:+ "UPDATE " +:+ table_name self +:+
  nl +:+ indent +:+ "SET " +:+ assignments +:+
  nl +:+ indent +:+ "WHERE id = ?" +:+
  nl +:+ indent.

Definition perform_update (id : Z) (data : kwargs) : M S (option pydict) :=
  let keys : gset string := list_to_set (Dict.keys data) in
  let unknown_fields := keys ∖ list_to_set (update_fields self) in
  if decide (0 < size unknown_fields) then
    raise (AttributeError unknown_fields)
  else
    let fields_values :=
      Dict.get data <$> filter (Dict.contains data) (update_fields self) in
    if decide (length fields_values ≤ 0)%nat then ret None
    else
      do_ execute
            (update_statement (for_update_query (update_fields self) data))
            (Some (fields_values ++ [PyInt id]));
      let returnable_fields :=
        elements (list_to_set (retrieve_fields self)
                    ∩ list_to_set (Dict.keys data) : gset string) in
      let context := Dict.comprehension (Dict.get data) returnable_fields in
      ret (Some context).

Definition delete_statement : string :=
  nl +:+ indent +:+ "DELETE FROM " +:+ table_name self +:+
  nl +:+ indent +:+ "WHERE id = ?" +:+
  nl +:+ indent.

Definition perform_delete (id : Z) : M S unit :=
  do_ execute delete_statement (Some [PyInt id]);
  ret ().

(** *** What the methods send and build

    The locals of the methods, as functions of the arguments, so that
    statements about a call can name them.  The lemmas of the next part
    tie each of them to the method it comes from. *)

(** [valid_fields] of [perform_create]; with [update_fields], the fields
    whose values [perform_update] sends. *)
Definition valid_fields (fields : list string) (data : kwargs) : list string :=
  filter (Dict.contains data) fields.

(** [fields_values] of [perform_create] and [perform_update] *)
Definition fields_values (fields : list string) (data : kwargs) : list pyval :=
  Dict.get data <$> valid_fields fields data.

(** The [execute] call of [perform_create]. *)
Definition create_call (data : kwargs) : call :=
  (insert_statement
     (join ", " (valid_fields (create_fields self) data))
     (for_create_query (length (fields_values (create_fields self) data))),
   Some (fields_values (create_fields self) data)).

(** [context] of [perform_create], once [id] is set. *)
Definition create_context (data : kwargs) (id : pyval) : pydict :=
  <["id" := id]> (Dict.comprehension (Dict.get data) (retrieve_fields self)).

(** [project_fields] of [perform_retrieve] after its second [if]. *)
Definition projected_fields (project_fields : list string) : list string :=
  if decide (length project_fields ≤ 0)%nat then retrieve_fields self
  else project_fields.

(** The [execute] call of [perform_retrieve] for the fields it projects. *)
Definition retrieve_call (projected : list string) (where_kwargs : kwargs)
    : call :=
  let query :=
    "SELECT " +:+ for_select_query projected +:+ nl +:+
    "FROM " +:+ table_name self in
  match Dict.keys where_kwargs with
  | [] => (query, None)
  | where_keys =>
      (query +:+ nl +:+ "WHERE " +:+ for_where_query where_keys,
       Some (Dict.get where_kwargs <$> where_keys))
  end.

(** The [execute] call of [perform_update]. *)
Definition update_call (id : Z) (data : kwargs) : call :=
  (update_statement (for_update_query (update_fields self) data),
   Some (fields_values (update_fields self) data ++ [PyInt id])).

(** The [execute] call of [perform_delete]. *)
Definition delete_call (id : Z) : call :=
  (delete_statement, Some [PyInt id]).

(** The record a method hands back for [context], with or without
    [return_type]. *)
Definition shape {T} (return_type : option (pydict → T)) (context : pydict)
    : shaped T :=
  match return_type with
  | Some return_type => Built (return_type context)
  | None => Plain context
  end.

(** The cursor once the database has answered [c] with [r] and moved to
    [s']. *)
Definition answered (cur : Cursor S) (c : call) (r : reply) (s' : S)
    : Cursor S :=
  MkCursor s' (reply_lastrowid r) (reply_rowcount r) (reply_rows r)
    (executed cur ++ [c]).

(** The cursor once every row of its result set has been taken. *)
Definition exhausted (cur : Cursor S) : Cursor S :=
  MkCursor (db cur) (lastrowid cur) (rowcount cur) [] (executed cur).

(** *** The spec's wording, for comparison *)

(** "A lazily consumed sequence of rows (... not restartable - one pass
    over the Cursor's result set)": a result that is consumed lazily has
    taken no row from the cursor when the method returns; the rows [rows]
    that the database answered with are all still to be yielded. *)
Definition lazily_consumed (rows : list pydict) (cur' : Cursor S) : Prop :=
  result_set cur' = rows.

(** "If none of the input keys are in create_fields, the statement still
    executes with an empty column list": the cursor has been asked to
    execute the INSERT with no column and no value. *)
Definition executes_empty_insert (cur cur' : Cursor S) : Prop :=
  executed cur' =
    executed cur ++ [(insert_statement "" (for_create_query 0), Some [])].

End AbstractInterface.

(** ** A scripted database for examples *)

(** A stand-in for the connector: it answers the statements it is given with
    the replies of a script, in order, whatever the statements are, and
    rejects a statement once the script is used up. *)
Definition script : Type := list reply.

#[global] Instance scripted_database : Database script :=
  λ _ _ replies,
    match replies with
    | [] => inl "no reply left"
    | r :: replies' => inr (r, replies')
    end.

(** A cursor fresh from [connection.cursor()]. *)
Definition fresh_cursor {S} (s : S) : Cursor S :=
  MkCursor s PyNone (-1) [] [].

(** The schema of a [user] table whose key column [id] can be read and can
    also be given on creation. *)
Definition user_schema : Schema := {|
  table_name := "user";
  create_fields := ["id"; "username"; "password"];
  retrieve_fields := ["id"; "username"; "email"];
  update_fields := ["password"; "email"];
|}.

(** Keyword data for that table: a new user, the same with a key column
    value, and a field the table does not have. *)
Definition ann : kwargs :=
  [("username", PyStr "ann"); ("password", PyStr "s3cret")].

Definition ann_with_id : kwargs :=
  [("id", PyInt 5); ("username", PyStr "ann")].

Definition bogus : kwargs := [("bogus", PyInt 1)].

Definition new_email : kwargs := [("email", PyStr "ann@example.org")].

Definition new_credentials : kwargs :=
  [("email", PyStr "ann@example.org"); ("password", PyStr "hunter2")].

(** The same keywords written in another order, and a change of the
    password alone. *)
Definition ann_reordered : kwargs :=
  [("password", PyStr "s3cret"); ("username", PyStr "ann")].

Definition credentials_reordered : kwargs :=
  [("password", PyStr "hunter2"); ("email", PyStr "ann@example.org")].

Definition new_password : kwargs := [("password", PyStr "hunter2")].

(** A filter on two columns, one of them not retrievable. *)
Definition by_name_and_password : kwargs :=
  [("username", PyStr "ann"); ("password", PyStr "s3cret")].

(** A filter on two retrievable columns, another user with the same
    keywords as [ann], another filter with the same keyword as
    [new_email]. *)
Definition by_name_and_email : kwargs :=
  [("username", PyStr "ann"); ("email", PyStr "ann@example.org")].

Definition bob : kwargs :=
  [("username", PyStr "bob"); ("password", PyStr "hunter2")].

Definition other_email : kwargs := [("email", PyStr "bob@example.org")].

(** A cursor on a connection that rejects every statement. *)
Definition broken_cursor : Cursor script := fresh_cursor [].

(** Replies of the database: to an INSERT that made row 7, to a SELECT that
    found two rows, to a DELETE or UPDATE that matched no row. *)
Definition inserted : reply := Reply (PyInt 7) 1 [].

Definition row_ann : pydict :=
  {["id" := PyInt 7; "username" := PyStr "ann"; "email" := PyNone]}.

Definition row_bob : pydict :=
  {["id" := PyInt 8; "username" := PyStr "bob"; "email" := PyNone]}.

Definition two_rows : reply := Reply PyNone 2 [row_ann; row_bob].

Definition no_row_matched : reply := Reply PyNone 0 [].

(** * Properties *)

(** ** Field validation *)

Section Validation.
Implicit Types given allowed : list string.

(** [len(set(given) - set(allowed)) > 0] holds exactly when some given
    name is not allowed. *)
Lemma unknown_fields_pos given allowed :
  0 < size (list_to_set given ∖ list_to_set allowed : gset string) ↔
  ∃ key, key ∈ given ∧ key ∉ allowed.
Proof.
  split.
  - intros [key [Hin Hout]%elem_of_difference]%size_pos_elem_of.
    exists key. by rewrite !elem_of_list_to_set in Hin, Hout.
  - intros (key & Hin & Hout).
    assert (key ∈ (list_to_set given ∖ list_to_set allowed : gset string))
      as Hkey by set_solver.
    destruct (decide (size (list_to_set given ∖ list_to_set allowed
                              : gset string) = 0)) as [Hz | Hz]; [| lia].
    apply size_empty_iff in Hz. rewrite Hz in Hkey.
    by apply not_elem_of_empty in Hkey.
Qed.

Lemma unknown_fields_none given allowed :
  ¬ 0 < size (list_to_set given ∖ list_to_set allowed : gset string) ↔
  ∀ key, key ∈ given → key ∈ allowed.
Proof.
  rewrite unknown_fields_pos. split.
  - intros Hno key Hin. destruct (decide (key ∈ allowed)); [done |].
    exfalso. apply Hno. by exists key.
  - intros Hall (key & Hin & Hout). by apply Hout, Hall.
Qed.

Lemma unknown_fields_nonempty given allowed :
  (list_to_set given ∖ list_to_set allowed : gset string) ≠ ∅ ↔
  ∃ key, key ∈ given ∧ key ∉ allowed.
Proof.
  rewrite <- unknown_fields_pos. split.
  - intros Hne.
    destruct (decide (size (list_to_set given ∖ list_to_set allowed
                              : gset string) = 0)) as [Hz | Hz]; [| lia].
    apply size_empty_iff in Hz. exfalso. apply Hne. by apply leibniz_equiv.
  - intros Hpos Hempty. rewrite Hempty, size_empty in Hpos. lia.
Qed.

End Validation.

(** ** Dictionaries *)

Section Dictionaries.
Implicit Types (data : kwargs) (key : string) (fields : list string).

Lemma lookup_is_Some data key :
  key ∈ Dict.keys data ↔ is_Some (Dict.lookup key data).
Proof.
  unfold Dict.keys. induction data as [| [k v] data IH]; simpl.
  - split; [by intros ?%elem_of_nil | by intros [? ?]].
  - rewrite elem_of_cons. destruct (decide (k = key)) as [-> | Hne].
    + split; [by eexists | by left].
    + rewrite <- IH. split; [by intros [-> | ?] | by right].
Qed.

(** [data.get(key)] is [data[key]] for a key of the dict... *)
Lemma lookup_get data key :
  key ∈ Dict.keys data → Dict.lookup key data = Some (Dict.get data key).
Proof.
  intros [v Hv]%lookup_is_Some. unfold Dict.get. by rewrite Hv.
Qed.

(** ... and [None] for any other. *)
Lemma get_missing data key :
  key ∉ Dict.keys data →
  Dict.lookup key data = None ∧ Dict.get data key = PyNone.
Proof.
  intros Hout. unfold Dict.get.
  destruct (Dict.lookup key data) as [v |] eqn:Hv; [| done].
  exfalso. apply Hout, lookup_is_Some. by eexists.
Qed.

Lemma comprehension_lookup (f : string → pyval) fields key :
  Dict.comprehension f fields !! key
    = if decide (key ∈ fields) then Some (f key) else None.
Proof.
  unfold Dict.comprehension. induction fields as [| k fields IH].
  - rewrite fmap_nil, list_to_map_nil, lookup_empty.
    by rewrite decide_False by apply not_elem_of_nil.
  - rewrite fmap_cons, list_to_map_cons.
    destruct (decide (k = key)) as [-> | Hne].
    + rewrite lookup_insert_eq. by rewrite decide_True by left.
    + rewrite lookup_insert_ne, IH by done.
      destruct (decide (key ∈ fields)) as [Hin | Hout].
      * by rewrite decide_True by (by right).
      * rewrite decide_False; [done |]. by intros [-> | ?]%elem_of_cons.
Qed.

Lemma comprehension_dom (f : string → pyval) fields :
  dom (Dict.comprehension f fields) = list_to_set fields.
Proof.
  apply set_eq. intros key.
  rewrite elem_of_dom, comprehension_lookup, elem_of_list_to_set.
  destruct (decide (key ∈ fields)) as [Hin | Hout]; split; intros Hkey;
    [done | by eexists | by destruct Hkey | done].
Qed.

End Dictionaries.

(** ** The methods, case by case *)

Section Equations.
Context {S : Type} `{Database S} `{Placeholder}.
Variable self : Schema.
Implicit Types (cur : Cursor S) (data where_kwargs : kwargs) (id : Z).

Lemma execute_eq query params cur :
  execute query params cur =
    match run query params (db cur) with
    | inl msg =>
        (Raise (DatabaseError msg),
         MkCursor (db cur) (lastrowid cur) (rowcount cur) (result_set cur)
           (executed cur ++ [(query, params)]))
    | inr (r, s') => (Return (), answered cur (query, params) r s')
    end.
Proof. reflexivity. Qed.

(** Whatever the database answers, [execute] records the statement. *)
Lemma execute_executed query params cur :
  executed (execute query params cur).2 = executed cur ++ [(query, params)].
Proof.
  rewrite execute_eq. by destruct (run query params (db cur)) as [msg | [r s']].
Qed.

Lemma execute_not_AttributeError query params cur unknown :
  (execute query params cur).1 ≠ Raise (AttributeError unknown).
Proof.
  rewrite execute_eq. by destruct (run query params (db cur)) as [msg | [r s']].
Qed.

(** *** perform_create *)

Lemma perform_create_unknown {T} (return_type : option (pydict → T)) data cur :
  0 < size (list_to_set (Dict.keys data) ∖ list_to_set (create_fields self)
              : gset string) →
  perform_create self return_type data cur =
    (Raise (AttributeError
              (list_to_set (Dict.keys data) ∖ list_to_set (create_fields self))),
     cur).
Proof. intros Hpos. unfold perform_create. by rewrite decide_True. Qed.

Lemma perform_create_known {T} (return_type : option (pydict → T)) data cur :
  ¬ 0 < size (list_to_set (Dict.keys data) ∖ list_to_set (create_fields self)
                : gset string) →
  perform_create self return_type data cur =
    match run (create_call self data).1 (create_call self data).2 (db cur) with
    | inl msg =>
        (Raise (DatabaseError msg),
         MkCursor (db cur) (lastrowid cur) (rowcount cur) (result_set cur)
           (executed cur ++ [create_call self data]))
    | inr (r, s') =>
        (Return (shape return_type (create_context self data (reply_lastrowid r))),
         answered cur (create_call self data) r s')
    end.
Proof.
  intros Hnone. unfold perform_create. rewrite decide_False by done.
  unfold bind. rewrite execute_eq. fold (valid_fields (create_fields self) data).
  fold (fields_values (create_fields self) data). unfold create_call. simpl.
  destruct (run _ _ (db cur)) as [msg | [r s']]; [done |].
  by destruct return_type.
Qed.

(** *** perform_retrieve *)

Lemma exhausted_id cur : result_set cur = [] → exhausted cur = cur.
Proof. destruct cur. simpl. by intros ->. Qed.

(** The [for] loop takes every row, in order, and leaves none. *)
Lemma for_rows_fold {A} (body : pydict → A → A) turns lst cur :
  length (result_set cur) < turns →
  for_rows turns body lst cur =
    (Return (foldl (λ lst t, body t lst) lst (result_set cur)), exhausted cur).
Proof.
  revert lst cur. induction turns as [| turns IH]; intros lst cur Hlen; [lia |].
  destruct cur as [s l n rows log]. simpl in *.
  destruct rows as [| t rows]; [done |].
  unfold bind, next. simpl. rewrite IH by (simpl in *; lia). done.
Qed.

Lemma for_in_cur_fold {A} (body : pydict → A → A) lst cur :
  for_in_cur body lst cur =
    (Return (foldl (λ lst t, body t lst) lst (result_set cur)), exhausted cur).
Proof. unfold for_in_cur. apply for_rows_fold. lia. Qed.

Lemma foldl_append {A B} (f : A → B) rows (lst : list B) :
  foldl (λ lst t, lst ++ [f t]) lst rows = lst ++ (f <$> rows).
Proof.
  revert lst. induction rows as [| t rows IH]; intros lst; simpl.
  - by rewrite app_nil_r.
  - by rewrite IH, <- app_assoc.
Qed.

Lemma collect_rows {B} (f : pydict → B) cur :
  for_in_cur (λ t lst, lst ++ [f t]) [] cur =
    (Return (f <$> result_set cur), exhausted cur).
Proof. by rewrite for_in_cur_fold, foldl_append. Qed.

Lemma perform_retrieve_unknown {T} (return_type : option (pydict → T))
    project_fields where_kwargs cur :
  0 < size (list_to_set project_fields ∖ list_to_set (retrieve_fields self)
              : gset string) →
  perform_retrieve self return_type project_fields where_kwargs cur =
    (Raise (AttributeError
              (list_to_set project_fields ∖ list_to_set (retrieve_fields self))),
     cur).
Proof. intros Hpos. unfold perform_retrieve. by rewrite decide_True. Qed.

Lemma perform_retrieve_unknown_where {T} (return_type : option (pydict → T))
    project_fields where_kwargs cur :
  ¬ 0 < size (list_to_set project_fields ∖ list_to_set (retrieve_fields self)
                : gset string) →
  0 < size (list_to_set (Dict.keys where_kwargs)
              ∖ list_to_set (retrieve_fields self) : gset string) →
  perform_retrieve self return_type project_fields where_kwargs cur =
    (Raise (AttributeError
              (list_to_set (Dict.keys where_kwargs)
                 ∖ list_to_set (retrieve_fields self))),
     cur).
Proof.
  intros Hnone Hpos. unfold perform_retrieve.
  rewrite decide_False by done. by rewrite decide_True.
Qed.

Lemma perform_retrieve_known {T} (return_type : option (pydict → T))
    project_fields where_kwargs cur :
  ¬ 0 < size (list_to_set project_fields ∖ list_to_set (retrieve_fields self)
                : gset string) →
  ¬ 0 < size (list_to_set (Dict.keys where_kwargs)
                ∖ list_to_set (retrieve_fields self) : gset string) →
  let c := retrieve_call self (projected_fields self project_fields)
             where_kwargs in
  perform_retrieve self return_type project_fields where_kwargs cur =
    match run c.1 c.2 (db cur) with
    | inl msg =>
        (Raise (DatabaseError msg),
         MkCursor (db cur) (lastrowid cur) (rowcount cur) (result_set cur)
           (executed cur ++ [c]))
    | inr (r, s') =>
        (Return (shape return_type <$> reply_rows r),
         exhausted (answered cur c r s'))
    end.
Proof.
  intros Hnone Hnone_where c. unfold perform_retrieve.
  rewrite !decide_False by done.
  fold (projected_fields self project_fields). unfold bind.
  subst c. unfold retrieve_call.
  destruct (Dict.keys where_kwargs) as [| key where_keys] eqn:Hkeys.
  - rewrite decide_False by (simpl; lia). rewrite execute_eq. simpl.
    destruct (run _ _ (db cur)) as [msg | [r s']]; [done |].
    destruct return_type as [return_type |]; by rewrite collect_rows.
  - rewrite decide_True by (simpl; lia). rewrite execute_eq. simpl.
    destruct (run _ _ (db cur)) as [msg | [r s']]; [done |].
    destruct return_type as [return_type |]; by rewrite collect_rows.
Qed.

(** *** perform_update *)

Lemma perform_update_unknown id data cur :
  0 < size (list_to_set (Dict.keys data) ∖ list_to_set (update_fields self)
              : gset string) →
  perform_update self id data cur =
    (Raise (AttributeError
              (list_to_set (Dict.keys data) ∖ list_to_set (update_fields self))),
     cur).
Proof. intros Hpos. unfold perform_update. by rewrite decide_True. Qed.

Lemma perform_update_nothing id data cur :
  ¬ 0 < size (list_to_set (Dict.keys data) ∖ list_to_set (update_fields self)
                : gset string) →
  (length (fields_values (update_fields self) data) ≤ 0)%nat →
  perform_update self id data cur = (Return None, cur).
Proof.
  intros Hnone Hlen. unfold perform_update. rewrite decide_False by done.
  fold (valid_fields (update_fields self) data).
  fold (fields_values (update_fields self) data). by rewrite decide_True.
Qed.

Lemma perform_update_known id data cur :
  ¬ 0 < size (list_to_set (Dict.keys data) ∖ list_to_set (update_fields self)
                : gset string) →
  ¬ (length (fields_values (update_fields self) data) ≤ 0)%nat →
  perform_update self id data cur =
    match run (update_call self id data).1 (update_call self id data).2
            (db cur) with
    | inl msg =>
        (Raise (DatabaseError msg),
         MkCursor (db cur) (lastrowid cur) (rowcount cur) (result_set cur)
           (executed cur ++ [update_call self id data]))
    | inr (r, s') =>
        (Return
           (Some (Dict.comprehension (Dict.get data)
                    (elements (list_to_set (retrieve_fields self)
                                 ∩ list_to_set (Dict.keys data)
                               : gset string)))),
         answered cur (update_call self id data) r s')
    end.
Proof.
  intros Hnone Hlen. unfold perform_update. rewrite decide_False by done.
  fold (valid_fields (update_fields self) data).
  fold (fields_values (update_fields self) data).
  rewrite decide_False by done. unfold bind. rewrite execute_eq.
  unfold update_call. simpl.
  by destruct (run _ _ (db cur)) as [msg | [r s']].
Qed.

(** *** perform_delete *)

Lemma perform_delete_eq id cur :
  perform_delete self id cur =
    match run (delete_call self id).1 (delete_call self id).2 (db cur) with
    | inl msg =>
        (Raise (DatabaseError msg),
         MkCursor (db cur) (lastrowid cur) (rowcount cur) (result_set cur)
           (executed cur ++ [delete_call self id]))
    | inr (r, s') => (Return (), answered cur (delete_call self id) r s')
    end.
Proof.
  unfold perform_delete, bind. rewrite execute_eq. unfold delete_call. simpl.
  by destruct (run _ _ (db cur)) as [msg | [r s']].
Qed.

End Equations.

(** ** The contract of the four operations *)

Section Contract.
Context {S : Type} `{Database S} `{Placeholder}.
Variable self : Schema.
Implicit Types (cur : Cursor S) (data where_kwargs : kwargs) (id : Z).
Implicit Types (names : gset string) (project_fields : list string).

(** C1. [perform_create] fails with the field-validation error exactly when
    [keys(data) - create_fields] is not empty; the error then carries that
    set of names; and when every key belongs to [create_fields] no
    validation error is raised. *)
Theorem perform_create_FieldNotAllowed {T} (return_type : option (pydict → T))
    data cur :
  let unknown_fields : gset string :=
    list_to_set (Dict.keys data) ∖ list_to_set (create_fields self) in
  ((∃ names, (perform_create self return_type data cur).1
               = Raise (AttributeError names))
     ↔ unknown_fields ≠ ∅) ∧
  (unknown_fields ≠ ∅ →
     (perform_create self return_type data cur).1
       = Raise (AttributeError unknown_fields)) ∧
  ((∀ key, key ∈ Dict.keys data → key ∈ create_fields self) →
     ∀ names, (perform_create self return_type data cur).1
                ≠ Raise (AttributeError names)).
Proof.
  intros unknown_fields.
  assert (¬ 0 < size unknown_fields →
          ∀ names, (perform_create self return_type data cur).1
                     ≠ Raise (AttributeError names)) as Hknown.
  { intros Hnone names. rewrite perform_create_known by done.
    by destruct (run _ _ (db cur)) as [msg | [r s']]. }
  split; [split |split].
  - intros [names Hraise]. apply unknown_fields_nonempty, unknown_fields_pos.
    destruct (decide (0 < size unknown_fields)) as [| Hnone]; [done |].
    by destruct (Hknown Hnone names).
  - intros Hpos%unknown_fields_nonempty%unknown_fields_pos.
    exists unknown_fields. by rewrite perform_create_unknown.
  - intros Hpos%unknown_fields_nonempty%unknown_fields_pos.
    by rewrite perform_create_unknown.
  - intros Hall%unknown_fields_none. by apply Hknown.
Qed.

(** C3. [perform_retrieve] fails with the field-validation error exactly
    when some projection field or some filter key is outside
    [retrieve_fields]; and when the projection list is empty and the filter
    keys are all known, the statement sent projects all of
    [retrieve_fields], in the order they are declared. *)
Theorem perform_retrieve_FieldNotAllowed {T}
    (return_type : option (pydict → T)) project_fields where_kwargs cur :
  ((∃ names, (perform_retrieve self return_type project_fields
                where_kwargs cur).1 = Raise (AttributeError names))
     ↔ ∃ key, (key ∈ project_fields ∨ key ∈ Dict.keys where_kwargs)
              ∧ key ∉ retrieve_fields self) ∧
  (project_fields = [] →
   (∀ key, key ∈ Dict.keys where_kwargs → key ∈ retrieve_fields self) →
     projected_fields self project_fields = retrieve_fields self ∧
     executed (perform_retrieve self return_type project_fields
                 where_kwargs cur).2
       = executed cur
           ++ [retrieve_call self (retrieve_fields self) where_kwargs]).
Proof.
  split; [split |].
  - intros [names Hraise].
    destruct (decide (0 < size (list_to_set project_fields
                                  ∖ list_to_set (retrieve_fields self)
                                : gset string))) as [Hpos | Hnone].
    { apply unknown_fields_pos in Hpos as (key & Hin & Hout).
      exists key. auto. }
    destruct (decide (0 < size (list_to_set (Dict.keys where_kwargs)
                                  ∖ list_to_set (retrieve_fields self)
                                : gset string))) as [Hpos | Hnone_where].
    { apply unknown_fields_pos in Hpos as (key & Hin & Hout).
      exists key. auto. }
    rewrite perform_retrieve_known in Hraise by done.
    by destruct (run _ _ (db cur)) as [msg | [r s']].
  - intros (key & Hin & Hout).
    destruct (decide (0 < size (list_to_set project_fields
                                  ∖ list_to_set (retrieve_fields self)
                                : gset string))) as [Hpos | Hnone].
    { eexists. by rewrite perform_retrieve_unknown. }
    eexists. rewrite perform_retrieve_unknown_where; [done | done |].
    apply unknown_fields_pos. exists key. split; [| done].
    destruct Hin as [Hin | Hin]; [| done].
    exfalso. apply Hout. by eapply unknown_fields_none.
  - intros -> Hwhere. split; [done |].
    rewrite perform_retrieve_known.
    + by destruct (run _ _ (db cur)) as [msg | [r s']].
    + apply unknown_fields_none. by intros key ?%elem_of_nil.
    + by apply unknown_fields_none.
Qed.

(** C5. When the data of [perform_update] has no disallowed key and no key
    of [update_fields], the method returns [None] and the cursor is as it
    was: no statement was executed and the database was not touched.  The
    outcome is a return, not an exception. *)
Theorem perform_update_nothing_to_update id data cur :
  (∀ key, key ∈ Dict.keys data → key ∈ update_fields self) →
  (∀ key, key ∈ Dict.keys data → key ∉ update_fields self) →
  perform_update self id data cur = (Return None, cur) ∧
  executed (perform_update self id data cur).2 = executed cur ∧
  db (perform_update self id data cur).2 = db cur.
Proof.
  intros Hallowed Hnone.
  assert (perform_update self id data cur = (Return None, cur)) as ->; [| done].
  apply perform_update_nothing; [by apply unknown_fields_none |].
  unfold fields_values, valid_fields. rewrite length_fmap.
  destruct (filter _ _) as [| key keys] eqn:Hfilter; [done |].
  assert (key ∈ filter (Dict.contains data) (update_fields self)) as Hkey
    by (rewrite Hfilter; left).
  apply list_elem_of_filter in Hkey as [Hin Hupd]. by destruct (Hnone key).
Qed.

(** C7. [perform_delete] validates nothing: whatever the identifier, it
    sends one DELETE statement with the predicate [id = ?] and the
    identifier as its parameter, it never raises the field-validation
    error, and whenever the database accepts the statement it returns
    [None], whatever row count the database reports (none is read). *)
Theorem perform_delete_unconditional id cur :
  delete_call self id =
    (nl +:+ indent +:+ "DELETE FROM " +:+ table_name self +:+
     nl +:+ indent +:+ "WHERE id = ?" +:+ nl +:+ indent,
     Some [PyInt id]) ∧
  executed (perform_delete self id cur).2
    = executed cur ++ [delete_call self id] ∧
  (∀ names, (perform_delete self id cur).1 ≠ Raise (AttributeError names)) ∧
  (∀ r s',
     run (delete_call self id).1 (delete_call self id).2 (db cur)
       = inr (r, s') →
     perform_delete self id cur
       = (Return (), answered cur (delete_call self id) r s')).
Proof.
  split; [done |]. rewrite perform_delete_eq.
  destruct (run _ _ (db cur)) as [msg | [r s']]; simpl.
  - by repeat split.
  - repeat split; [done |]. intros r' s'' [= -> ->]. done.
Qed.

(** C9. When [perform_create], [perform_retrieve] or [perform_update]
    raises the field-validation error, the cursor is exactly as it was
    before the call: validation comes before any use of the cursor. *)
Theorem validation_error_leaves_cursor {T U}
    (return_type : option (pydict → T)) (return_type' : option (pydict → U))
    data project_fields where_kwargs id data' cur names :
  ((perform_create self return_type data cur).1
     = Raise (AttributeError names) →
   (perform_create self return_type data cur).2 = cur) ∧
  ((perform_retrieve self return_type' project_fields where_kwargs cur).1
     = Raise (AttributeError names) →
   (perform_retrieve self return_type' project_fields where_kwargs cur).2
     = cur) ∧
  ((perform_update self id data' cur).1 = Raise (AttributeError names) →
   (perform_update self id data' cur).2 = cur).
Proof.
  split; [| split].
  - destruct (decide (0 < size (list_to_set (Dict.keys data)
                                  ∖ list_to_set (create_fields self)
                                : gset string))) as [Hpos | Hnone].
    + by rewrite perform_create_unknown.
    + rewrite perform_create_known by done.
      by destruct (run _ _ (db cur)) as [msg | [r s']].
  - destruct (decide (0 < size (list_to_set project_fields
                                  ∖ list_to_set (retrieve_fields self)
                                : gset string))) as [Hpos | Hnone].
    { by rewrite perform_retrieve_unknown. }
    destruct (decide (0 < size (list_to_set (Dict.keys where_kwargs)
                                  ∖ list_to_set (retrieve_fields self)
                                : gset string))) as [Hpos | Hnone_where].
    { by rewrite perform_retrieve_unknown_where. }
    rewrite perform_retrieve_known by done.
    by destruct (run _ _ (db cur)) as [msg | [r s']].
  - destruct (decide (0 < size (list_to_set (Dict.keys data')
                                  ∖ list_to_set (update_fields self)
                                : gset string))) as [Hpos | Hnone].
    { by rewrite perform_update_unknown. }
    destruct (decide (length (fields_values (update_fields self) data') ≤ 0)%nat)
      as [Hlen | Hlen].
    { by rewrite perform_update_nothing. }
    rewrite perform_update_known by done.
    by destruct (run _ _ (db cur)) as [msg | [r s']].
Qed.

(** *** What a create returns *)

Lemma create_context_id data (v : pyval) :
  create_context self data v !! "id" = Some v.
Proof. unfold create_context. by rewrite lookup_insert_eq. Qed.

Lemma create_context_other data (v : pyval) key :
  key ≠ "id" →
  create_context self data v !! key
    = if decide (key ∈ retrieve_fields self) then Some (Dict.get data key)
      else None.
Proof.
  intros Hne. unfold create_context.
  by rewrite lookup_insert_ne, comprehension_lookup.
Qed.

Lemma create_context_dom data (v : pyval) :
  dom (create_context self data v)
    = list_to_set (retrieve_fields self) ∪ {["id"]}.
Proof.
  unfold create_context. rewrite dom_insert_L, comprehension_dom.
  apply (comm_L (∪)).
Qed.

(** C2, as the code has it.  For a create whose keys all belong to
    [create_fields] and whose INSERT the database accepts: the method
    returns the mapping itself, or what the result constructor makes of it
    when one is given; the mapping's keys are [retrieve_fields] and [id];
    [id] holds the cursor's [lastrowid]; every other key that the data
    also has holds the data's value. *)
Theorem perform_create_returns {T} (return_type : option (pydict → T))
    data cur r s' :
  (∀ key, key ∈ Dict.keys data → key ∈ create_fields self) →
  run (create_call self data).1 (create_call self data).2 (db cur)
    = inr (r, s') →
  ∃ context cur',
    perform_create self return_type data cur
      = (Return match return_type with
                | Some return_type => Built (return_type context)
                | None => Plain context
                end, cur') ∧
    dom context = list_to_set (retrieve_fields self) ∪ {["id"]} ∧
    context !! "id" = Some (lastrowid cur') ∧
    ∀ key, key ≠ "id" → key ∈ dom context → key ∈ Dict.keys data →
           context !! key = Dict.lookup key data.
Proof.
  intros Hknown%unknown_fields_none Hrun.
  exists (create_context self data (reply_lastrowid r)),
         (answered cur (create_call self data) r s').
  rewrite perform_create_known, Hrun by done.
  split; [done |]. split; [apply create_context_dom |].
  split; [apply create_context_id |].
  intros key Hne Hdom Hdata. rewrite create_context_other by done.
  rewrite create_context_dom in Hdom.
  apply elem_of_union in Hdom as [Hin%elem_of_list_to_set | Hid%elem_of_singleton];
    [| done].
  rewrite decide_True by done. by rewrite lookup_get.
Qed.

(** C10, as the code has it.  For a create whose keys all belong to
    [create_fields] and whose INSERT the database accepts: every field of
    [retrieve_fields] is a key of the returned mapping, whichever fields
    the data supplied; each of them other than [id] that the data does not
    have holds [None]; and [id] holds the cursor's [lastrowid], so also when
    the data does not have it. *)
Theorem perform_create_absent_fields {T} (return_type : option (pydict → T))
    data cur r s' :
  (∀ key, key ∈ Dict.keys data → key ∈ create_fields self) →
  run (create_call self data).1 (create_call self data).2 (db cur)
    = inr (r, s') →
  ∃ context cur',
    perform_create self return_type data cur
      = (Return (shape return_type context), cur') ∧
    (∀ key, key ∈ retrieve_fields self → key ∈ dom context) ∧
    (∀ key, key ∈ retrieve_fields self → key ∉ Dict.keys data →
            key ≠ "id" → context !! key = Some PyNone) ∧
    context !! "id" = Some (lastrowid cur') ∧
    ("id" ∉ Dict.keys data → context !! "id" = Some (lastrowid cur')).
Proof.
  intros Hknown%unknown_fields_none Hrun.
  exists (create_context self data (reply_lastrowid r)),
         (answered cur (create_call self data) r s').
  rewrite perform_create_known, Hrun by done.
  split; [done |]. split; [| split; [| split]].
  - intros key Hin. rewrite create_context_dom.
    by apply elem_of_union_l, elem_of_list_to_set.
  - intros key Hin Hout Hne. rewrite create_context_other by done.
    rewrite decide_True by done. by destruct (get_missing data key Hout) as [_ ->].
  - apply create_context_id.
  - intros _. apply create_context_id.
Qed.

(** C8, as the code has it.  A create that passes validation with none of
    its keys in [create_fields] - it then has no key at all - still sends
    the INSERT, with an empty column list and an empty parameter tuple; it
    does not return or fail before that. *)
Theorem perform_create_no_fields {T} (return_type : option (pydict → T))
    data cur :
  (∀ key, key ∈ Dict.keys data → key ∈ create_fields self) →
  (∀ key, key ∈ Dict.keys data → key ∉ create_fields self) →
  create_call self data
    = (nl +:+ indent +:+ "INSERT INTO" +:+
       nl +:+ indent +:+ table_name self +:+ "()" +:+
       nl +:+ indent +:+ "VALUES(" +:+ for_create_query 0 +:+ ")" +:+
       nl +:+ indent,
       Some []) ∧
  executed (perform_create self return_type data cur).2
    = executed cur ++ [create_call self data] ∧
  executes_empty_insert self cur (perform_create self return_type data cur).2.
Proof.
  intros Hknown Hnone.
  assert (valid_fields (create_fields self) data = []) as Hvalid.
  { unfold valid_fields.
    destruct (filter _ _) as [| key keys] eqn:Hfilter; [done |].
    assert (key ∈ filter (Dict.contains data) (create_fields self)) as Hkey
      by (rewrite Hfilter; left).
    apply list_elem_of_filter in Hkey as [Hin Hcreate].
    by destruct (Hnone key). }
  assert (create_call self data
          = (insert_statement self "" (for_create_query 0), Some [])) as Hcall.
  { unfold create_call, fields_values. by rewrite Hvalid. }
  assert (executed (perform_create self return_type data cur).2
          = executed cur ++ [create_call self data]) as Hexecuted.
  { rewrite perform_create_known by by apply unknown_fields_none.
    by destruct (run _ _ (db cur)) as [msg | [r s']]. }
  split; [by rewrite Hcall |]. split; [done |].
  unfold executes_empty_insert. by rewrite Hexecuted, Hcall.
Qed.

(** C4, as the code has it.  For a retrieve that passes validation and
    whose SELECT the database accepts: the method returns a list, built
    before it returns by one pass over the cursor's result set, which is
    left with no row; the list has one entry per row, in the order the
    cursor yields them, each the row itself or, when a result constructor
    is given, what the constructor makes of the row. *)
Theorem perform_retrieve_rows {T} (return_type : option (pydict → T))
    project_fields where_kwargs cur r s' :
  (∀ key, key ∈ project_fields → key ∈ retrieve_fields self) →
  (∀ key, key ∈ Dict.keys where_kwargs → key ∈ retrieve_fields self) →
  run (retrieve_call self (projected_fields self project_fields)
         where_kwargs).1
      (retrieve_call self (projected_fields self project_fields)
         where_kwargs).2 (db cur) = inr (r, s') →
  ∃ lst cur',
    perform_retrieve self return_type project_fields where_kwargs cur
      = (Return lst, cur') ∧
    result_set cur' = [] ∧
    length lst = length (reply_rows r) ∧
    ∀ i t, reply_rows r !! i = Some t →
           lst !! i = Some match return_type with
                           | Some return_type => Built (return_type t)
                           | None => Plain t
                           end.
Proof.
  intros Hknown%unknown_fields_none Hwhere%unknown_fields_none Hrun.
  eexists _, _. rewrite perform_retrieve_known by done. simpl. rewrite Hrun.
  split; [done |]. split; [done |]. split; [by rewrite length_fmap |].
  intros i t Hrow. rewrite list_lookup_fmap, Hrow. by destruct return_type.
Qed.

End Contract.

(** ** Updates, with the placeholders as the spec describes them *)

Section Update.
Context {S : Type} `{Database S}.
#[local] Existing Instance spec_placeholder.
Variable self : Schema.
Implicit Types (cur : Cursor S) (data : kwargs) (id : Z).


End Update.

(** ** The contract on the [user] table *)

Section Examples.
#[local] Existing Instance spec_placeholder.

(** Every key of [data] is among [fields], for lists that are given. *)
Local Ltac known_keys :=
  apply Forall_forall; unfold Dict.keys; simpl;
  repeat (first [apply Forall_nil_2 | apply Forall_cons_2]);
  vm_compute; repeat constructor.

Lemma perform_create_returns_witness :
  (∀ key, key ∈ Dict.keys ann → key ∈ create_fields user_schema) ∧
  run (create_call user_schema ann).1 (create_call user_schema ann).2
    (db (fresh_cursor [inserted])) = inr (inserted, []) ∧
  ∃ context cur',
    perform_create (T:=unit) user_schema None ann (fresh_cursor [inserted])
      = (Return (Plain context), cur') ∧
    dom context = list_to_set (retrieve_fields user_schema) ∪ {["id"]} ∧
    context !! "id" = Some (lastrowid cur') ∧
    ∀ key, key ≠ "id" → key ∈ dom context → key ∈ Dict.keys ann →
           context !! key = Dict.lookup key ann.
Proof.
  assert (∀ key, key ∈ Dict.keys ann → key ∈ create_fields user_schema)
    as Hknown by known_keys.
  split; [exact Hknown |]. split; [reflexivity |].
  exact (perform_create_returns user_schema None ann
           (fresh_cursor [inserted]) inserted [] Hknown eq_refl).
Defined.

Lemma perform_create_FieldNotAllowed_witness :
  (list_to_set (Dict.keys bogus) ∖ list_to_set (create_fields user_schema)
     : gset string) ≠ ∅ ∧
  (perform_create (T:=unit) user_schema None bogus (fresh_cursor [inserted])).1
    = Raise (AttributeError
               (list_to_set (Dict.keys bogus)
                  ∖ list_to_set (create_fields user_schema))).
Proof.
  assert ((list_to_set (Dict.keys bogus)
             ∖ list_to_set (create_fields user_schema) : gset string) ≠ ∅)
    as Hunknown by (vm_compute; discriminate).
  split; [exact Hunknown |].
  exact (proj1 (proj2 (perform_create_FieldNotAllowed user_schema (T:=unit)
                         None bogus (fresh_cursor [inserted]))) Hunknown).
Defined.

Lemma perform_retrieve_FieldNotAllowed_witness :
  projected_fields user_schema [] = retrieve_fields user_schema ∧
  executed (perform_retrieve (T:=unit) user_schema None [] new_email
              (fresh_cursor [two_rows])).2
    = [retrieve_call user_schema ["id"; "username"; "email"] new_email].
Proof.
  apply (proj2 (perform_retrieve_FieldNotAllowed user_schema (T:=unit)
                  None [] new_email (fresh_cursor [two_rows])));
    [reflexivity | known_keys].
Defined.

Lemma perform_update_nothing_to_update_witness :
  (∀ key, key ∈ Dict.keys [] → key ∈ update_fields user_schema) ∧
  (∀ key, key ∈ Dict.keys [] → key ∉ update_fields user_schema) ∧
  perform_update user_schema 7 [] (fresh_cursor [no_row_matched])
    = (Return None, fresh_cursor [no_row_matched]).
Proof.
  assert (∀ key, key ∈ Dict.keys [] → key ∈ update_fields user_schema)
    as Hknown by known_keys.
  assert (∀ key, key ∈ Dict.keys [] → key ∉ update_fields user_schema)
    as Hnone by known_keys.
  split; [exact Hknown |]. split; [exact Hnone |].
  exact (proj1 (perform_update_nothing_to_update user_schema 7 []
                  (fresh_cursor [no_row_matched]) Hknown Hnone)).
Defined.

Lemma perform_delete_unconditional_witness :
  reply_rowcount no_row_matched = 0%Z ∧
  run (delete_call user_schema 404).1 (delete_call user_schema 404).2
    (db (fresh_cursor [no_row_matched])) = inr (no_row_matched, []) ∧
  perform_delete user_schema 404 (fresh_cursor [no_row_matched])
    = (Return (),
       answered (fresh_cursor [no_row_matched]) (delete_call user_schema 404)
         no_row_matched []).
Proof.
  split; [reflexivity |]. split; [reflexivity |].
  exact (proj2 (proj2 (proj2 (perform_delete_unconditional user_schema 404
                                (fresh_cursor [no_row_matched]))))
           no_row_matched [] eq_refl).
Defined.

Lemma validation_error_leaves_cursor_witness :
  (perform_create (T:=unit) user_schema None bogus (fresh_cursor [inserted])).1
    = Raise (AttributeError {["bogus"]}) ∧
  (perform_create (T:=unit) user_schema None bogus (fresh_cursor [inserted])).2
    = fresh_cursor [inserted] ∧
  (perform_retrieve (T:=unit) user_schema None [] bogus
     (fresh_cursor [inserted])).2 = fresh_cursor [inserted] ∧
  (perform_update user_schema 7 bogus (fresh_cursor [inserted])).2
    = fresh_cursor [inserted].
Proof.
  assert ((perform_create (T:=unit) user_schema None bogus
             (fresh_cursor [inserted])).1
          = Raise (AttributeError {["bogus"]})) as Hcreate
    by (vm_compute; reflexivity).
  assert ((perform_retrieve (T:=unit) user_schema None [] bogus
             (fresh_cursor [inserted])).1
          = Raise (AttributeError {["bogus"]})) as Hretrieve
    by (vm_compute; reflexivity).
  assert ((perform_update user_schema 7 bogus (fresh_cursor [inserted])).1
          = Raise (AttributeError {["bogus"]})) as Hupdate
    by (vm_compute; reflexivity).
  destruct (validation_error_leaves_cursor user_schema (T:=unit) (U:=unit)
              None None bogus [] bogus 7 bogus (fresh_cursor [inserted])
              {["bogus"]}) as (Hc & Hr & Hu).
  split; [exact Hcreate |]. split; [exact (Hc Hcreate) |].
  split; [exact (Hr Hretrieve) | exact (Hu Hupdate)].
Defined.

Lemma perform_create_absent_fields_witness :
  (∀ key, key ∈ Dict.keys ann → key ∈ create_fields user_schema) ∧
  run (create_call user_schema ann).1 (create_call user_schema ann).2
    (db (fresh_cursor [inserted])) = inr (inserted, []) ∧
  ∃ context cur',
    perform_create (T:=unit) user_schema None ann (fresh_cursor [inserted])
      = (Return (Plain context), cur') ∧
    (∀ key, key ∈ retrieve_fields user_schema → key ∈ dom context) ∧
    (∀ key, key ∈ retrieve_fields user_schema → key ∉ Dict.keys ann →
            key ≠ "id" → context !! key = Some PyNone) ∧
    context !! "id" = Some (lastrowid cur') ∧
    ("id" ∉ Dict.keys ann → context !! "id" = Some (lastrowid cur')).
Proof.
  assert (∀ key, key ∈ Dict.keys ann → key ∈ create_fields user_schema)
    as Hknown by known_keys.
  split; [exact Hknown |]. split; [reflexivity |].
  exact (perform_create_absent_fields user_schema None ann
           (fresh_cursor [inserted]) inserted [] Hknown eq_refl).
Defined.

Lemma perform_create_no_fields_witness :
  (∀ key, key ∈ Dict.keys [] → key ∈ create_fields user_schema) ∧
  (∀ key, key ∈ Dict.keys [] → key ∉ create_fields user_schema) ∧
  executes_empty_insert user_schema (fresh_cursor [inserted])
    (perform_create (T:=unit) user_schema None [] (fresh_cursor [inserted])).2.
Proof.
  assert (∀ key, key ∈ Dict.keys [] → key ∈ create_fields user_schema)
    as Hknown by known_keys.
  assert (∀ key, key ∈ Dict.keys [] → key ∉ create_fields user_schema)
    as Hnone by known_keys.
  split; [exact Hknown |]. split; [exact Hnone |].
  exact (proj2 (proj2 (perform_create_no_fields user_schema (T:=unit) None []
                         (fresh_cursor [inserted]) Hknown Hnone))).
Defined.

Lemma perform_retrieve_rows_witness :
  (∀ key, key ∈ ["username"] → key ∈ retrieve_fields user_schema) ∧
  (∀ key, key ∈ Dict.keys new_email → key ∈ retrieve_fields user_schema) ∧
  run (retrieve_call user_schema
         (projected_fields user_schema ["username"]) new_email).1
      (retrieve_call user_schema
         (projected_fields user_schema ["username"]) new_email).2
      (db (fresh_cursor [two_rows])) = inr (two_rows, []) ∧
  ∃ lst cur',
    perform_retrieve (T:=unit) user_schema None ["username"] new_email
      (fresh_cursor [two_rows]) = (Return lst, cur') ∧
    result_set cur' = [] ∧
    length lst = length (reply_rows two_rows) ∧
    ∀ i t, reply_rows two_rows !! i = Some t → lst !! i = Some (Plain t).
Proof.
  assert (∀ key, key ∈ ["username"] → key ∈ retrieve_fields user_schema)
    as Hknown by known_keys.
  assert (∀ key, key ∈ Dict.keys new_email → key ∈ retrieve_fields user_schema)
    as Hwhere by known_keys.
  split; [exact Hknown |]. split; [exact Hwhere |]. split; [reflexivity |].
  exact (perform_retrieve_rows user_schema (T:=unit) None ["username"]
           new_email (fresh_cursor [two_rows]) two_rows [] Hknown Hwhere
           eq_refl).
Defined.


(** The statements and the parameters of three calls, written out. *)
Example create_call_ann :
  create_call user_schema ann
    = (nl +:+ indent +:+ "INSERT INTO" +:+
       nl +:+ indent +:+ "user(username, password)" +:+
       nl +:+ indent +:+ "VALUES(?, ?)" +:+ nl +:+ indent,
       Some [PyStr "ann"; PyStr "s3cret"]).
Proof. reflexivity. Qed.

Example retrieve_call_new_email :
  retrieve_call user_schema (projected_fields user_schema []) new_email
    = ("SELECT id, username, email" +:+ nl +:+ "FROM user" +:+ nl +:+
       "WHERE email = ?",
       Some [PyStr "ann@example.org"]).
Proof. reflexivity. Qed.

Example update_call_new_credentials :
  update_call user_schema 7 new_credentials
    = (nl +:+ indent +:+ "UPDATE user" +:+
       nl +:+ indent +:+ "SET password = ?, email = ?" +:+
       nl +:+ indent +:+ "WHERE id = ?" +:+ nl +:+ indent,
       Some [PyStr "hunter2"; PyStr "ann@example.org"; PyInt 7]).
Proof. reflexivity. Qed.

(** *** Where the code departs from the spec's wording *)

(** C2, as worded, at a create that gives the key column: [id] is a key of
    the returned mapping and of the data, and the mapping holds the
    cursor's [lastrowid] there, not the data's value. *)
Lemma perform_create_id_not_echoed :
  (∀ key, key ∈ Dict.keys ann_with_id → key ∈ create_fields user_schema) ∧
  ∃ context cur',
    perform_create (T:=unit) user_schema None ann_with_id
      (fresh_cursor [inserted]) = (Return (Plain context), cur') ∧
    ¬ (∀ key, key ∈ dom context → key ∈ Dict.keys ann_with_id →
              context !! key = Dict.lookup key ann_with_id).
Proof.
  split; [known_keys |]. eexists _, _. split; [vm_compute; reflexivity |].
  intros Hecho. specialize (Hecho "id").
  assert (Some (PyInt 7) = Some (PyInt 5)) as [=].
  apply Hecho.
  - apply elem_of_dom. by eexists.
  - vm_compute. repeat constructor.
Qed.

(** C10, as worded, at a create that leaves the key column out: [id] is a
    field of [retrieve_fields] that the data lacks, and the mapping holds
    the cursor's [lastrowid] there, not [None]. *)
Lemma perform_create_id_not_None :
  (∀ key, key ∈ Dict.keys ann → key ∈ create_fields user_schema) ∧
  ∃ context cur',
    perform_create (T:=unit) user_schema None ann (fresh_cursor [inserted])
      = (Return (Plain context), cur') ∧
    ¬ (∀ key, key ∈ retrieve_fields user_schema → key ∉ Dict.keys ann →
              context !! key = Some PyNone).
Proof.
  split; [known_keys |]. eexists _, _. split; [vm_compute; reflexivity |].
  intros Hnone. specialize (Hnone "id").
  assert (Some (PyInt 7) = Some PyNone) as [=].
  apply Hnone.
  - vm_compute. repeat constructor.
  - intros Hin. vm_compute in Hin.
    repeat (apply elem_of_cons in Hin as [[=] | Hin]). by apply elem_of_nil in Hin.
Qed.

(** C8, as worded, at a create whose only key is unknown: none of its keys
    is in [create_fields], and the call fails on validation without
    sending any statement. *)
Lemma perform_create_bogus_no_insert :
  (∀ key, key ∈ Dict.keys bogus → key ∉ create_fields user_schema) ∧
  perform_create (T:=unit) user_schema None bogus (fresh_cursor [inserted])
    = (Raise (AttributeError {["bogus"]}), fresh_cursor [inserted]) ∧
  ¬ executes_empty_insert user_schema (fresh_cursor [inserted])
      (perform_create (T:=unit) user_schema None bogus
         (fresh_cursor [inserted])).2.
Proof.
  split; [| split].
  - intros key Hin Hcreate. unfold Dict.keys, bogus in Hin. simpl in Hin.
    apply elem_of_cons in Hin as [-> | Hin]; [| by apply elem_of_nil in Hin].
    vm_compute in Hcreate.
    repeat (apply elem_of_cons in Hcreate as [[=] | Hcreate]).
    by apply elem_of_nil in Hcreate.
  - vm_compute. reflexivity.
  - unfold executes_empty_insert. vm_compute. discriminate.
Qed.

(** C4, as worded, at a retrieve that finds two rows: when the method
    returns, both rows are in the list it returns and the cursor has none
    left to yield, so nothing is left to be consumed lazily. *)
Lemma perform_retrieve_not_lazy :
  (perform_retrieve (T:=unit) user_schema None [] [] (fresh_cursor [two_rows])).1
    = Return [Plain row_ann; Plain row_bob] ∧
  ¬ lazily_consumed (reply_rows two_rows)
      (perform_retrieve (T:=unit) user_schema None [] []
         (fresh_cursor [two_rows])).2.
Proof.
  split; [vm_compute; reflexivity |].
  unfold lazily_consumed. vm_compute. discriminate.
Qed.

End Examples.

(** * Further properties of the methods *)

(** ** Keyword dicts *)

Section KeywordDicts.
Implicit Types (data : kwargs) (key : string) (fields : list string).

(** Looking a key up in the keywords as written is looking it up in the
    dict they make. *)
Lemma lookup_list_to_map data key :
  Dict.lookup key data = (list_to_map data : pydict) !! key.
Proof.
  induction data as [| [k v] data IH]; simpl.
  - by rewrite lookup_empty.
  - destruct (decide (k = key)) as [-> | Hne].
    + by rewrite lookup_insert_eq.
    + by rewrite lookup_insert_ne.
Qed.

(** The order in which the keywords are written does not change what
    [data.get] finds. *)
Lemma get_Permutation data data' key :
  NoDup (Dict.keys data) → data ≡ₚ data' →
  Dict.get data key = Dict.get data' key.
Proof.
  intros Hnodup Hperm. unfold Dict.get.
  by rewrite !lookup_list_to_map, (list_to_map_proper data data').
Qed.

Lemma contains_Permutation data data' key :
  data ≡ₚ data' → Dict.contains data key ↔ Dict.contains data' key.
Proof. intros Hperm. unfold Dict.contains, Dict.keys. by rewrite Hperm. Qed.

Lemma valid_fields_Permutation fields data data' :
  data ≡ₚ data' → valid_fields fields data = valid_fields fields data'.
Proof.
  intros Hperm. unfold valid_fields. apply list_filter_iff.
  intros key. by apply contains_Permutation.
Qed.

Lemma fields_values_Permutation fields data data' :
  NoDup (Dict.keys data) → data ≡ₚ data' →
  fields_values fields data = fields_values fields data'.
Proof.
  intros Hnodup Hperm. unfold fields_values.
  rewrite (valid_fields_Permutation fields data data') by done.
  apply list_fmap_ext. intros _ key _. by apply get_Permutation.
Qed.

Lemma comprehension_Permutation fields data data' :
  NoDup (Dict.keys data) → data ≡ₚ data' →
  Dict.comprehension (Dict.get data) fields
    = Dict.comprehension (Dict.get data') fields.
Proof.
  intros Hnodup Hperm. unfold Dict.comprehension. f_equal.
  apply list_fmap_ext. intros _ key _. f_equal. by apply get_Permutation.
Qed.

Lemma keys_set_Permutation data data' :
  data ≡ₚ data' →
  (list_to_set (Dict.keys data) : gset string) = list_to_set (Dict.keys data').
Proof. intros Hperm. unfold Dict.keys. by rewrite Hperm. Qed.

(** What depends on the keys alone. *)
Lemma valid_fields_keys fields data data' :
  Dict.keys data = Dict.keys data' →
  valid_fields fields data = valid_fields fields data'.
Proof.
  intros Hkeys. unfold valid_fields. apply list_filter_iff.
  intros key. unfold Dict.contains. by rewrite Hkeys.
Qed.

(** With one entry per keyword, the values found for the keys in order are
    the values in order. *)
Lemma get_keys_values data :
  NoDup (Dict.keys data) → Dict.get data <$> Dict.keys data = data.*2.
Proof.
  unfold Dict.keys. induction data as [| [k v] data IH]; [done |].
  rewrite !fmap_cons. intros [Hfresh Hnodup]%NoDup_cons.
  rewrite <- IH by done. f_equal.
  - unfold Dict.get. simpl. by rewrite decide_True.
  - apply list_fmap_ext. intros _ key Hkey%list_elem_of_lookup_2.
    unfold Dict.get. simpl. rewrite decide_False; [done |]. by intros ->.
Qed.

(** Some field to set is left when the data has a key among the fields. *)
Lemma fields_values_nonempty fields data key :
  key ∈ Dict.keys data → key ∈ fields →
  ¬ (length (fields_values fields data) ≤ 0)%nat.
Proof.
  intros Hdata Hfield. unfold fields_values, valid_fields. rewrite length_fmap.
  assert (key ∈ filter (Dict.contains data) fields) as Hkey
    by by apply list_elem_of_filter.
  destruct (filter _ _); [by apply elem_of_nil in Hkey | simpl; lia].
Qed.

(** No field is left when the data has no key among the fields. *)
Lemma valid_fields_nil fields data :
  (∀ key, key ∈ Dict.keys data → key ∉ fields) → valid_fields fields data = [].
Proof.
  intros Hnone. unfold valid_fields.
  destruct (filter _ _) as [| key keys] eqn:Hfilter; [done |].
  assert (key ∈ filter (Dict.contains data) fields) as Hkey
    by (rewrite Hfilter; left).
  apply list_elem_of_filter in Hkey as [Hin Hfield]. by destruct (Hnone key).
Qed.

End KeywordDicts.

(** ** Updates *)

Section Updates.
Context {S : Type} `{Database S} `{Placeholder}.
Variable self : Schema.
Implicit Types (cur : Cursor S) (data : kwargs) (id : Z) (names : gset string).

(** X1. [perform_update] fails with the field-validation error exactly when
    some key of the data is outside [update_fields], and the error then
    carries exactly the keys of the data that are outside [update_fields]. *)
Theorem perform_update_FieldNotAllowed id data cur :
  ((∃ names, (perform_update self id data cur).1
               = Raise (AttributeError names))
     ↔ ∃ key, key ∈ Dict.keys data ∧ key ∉ update_fields self) ∧
  (∀ names, (perform_update self id data cur).1
              = Raise (AttributeError names) →
            ∀ key, key ∈ names
                   ↔ key ∈ Dict.keys data ∧ key ∉ update_fields self).
Proof.
  destruct (decide (0 < size (list_to_set (Dict.keys data)
                                ∖ list_to_set (update_fields self)
                              : gset string))) as [Hpos | Hnone].
  - rewrite perform_update_unknown by done. simpl. split.
    + split; [by intros _; apply unknown_fields_pos | by eexists].
    + intros names [= <-] key.
      by rewrite elem_of_difference, !elem_of_list_to_set.
  - assert (∀ names, (perform_update self id data cur).1
                       ≠ Raise (AttributeError names)) as Hother.
    { intros names.
      destruct (decide (length (fields_values (update_fields self) data) ≤ 0)%nat).
      - by rewrite perform_update_nothing.
      - rewrite perform_update_known by done.
        by destruct (run _ _ (db cur)) as [msg | [r s']]. }
    split.
    + split; [by intros [names ?%Hother] |].
      by intros ?%unknown_fields_pos.
    + by intros names ?%Hother.
Qed.

(** X2. [perform_update] returns [None] exactly when it is given no keyword
    at all: any other call raises or returns a mapping. *)
Theorem perform_update_None_iff id data cur :
  (perform_update self id data cur).1 = Return None ↔ data = [].
Proof.
  split.
  - destruct (decide (0 < size (list_to_set (Dict.keys data)
                                  ∖ list_to_set (update_fields self)
                                : gset string))) as [Hpos | Hnone].
    { by rewrite perform_update_unknown. }
    destruct (decide (length (fields_values (update_fields self) data) ≤ 0)%nat)
      as [Hlen | Hlen].
    + intros _. destruct data as [| [k v] data]; [done |]. exfalso.
      apply (fields_values_nonempty (update_fields self) ((k, v) :: data) k);
        [left | | done].
      apply unknown_fields_none with (key := k) in Hnone; [done | left].
    + rewrite perform_update_known by done.
      by destruct (run _ _ (db cur)) as [msg | [r s']].
  - intros ->. rewrite perform_update_nothing; [done | | ].
    + apply unknown_fields_none. by intros key ?%elem_of_nil.
    + unfold fields_values. rewrite valid_fields_nil; [simpl; lia |].
      by intros key ?%elem_of_nil.
Qed.

(** X3. An update that the database accepts returns a mapping, and the
    mapping is empty exactly when none of the keys given is in
    [retrieve_fields]: writing only fields that cannot be read back gives the
    empty dict, not [None]. *)
Theorem perform_update_empty_mapping id data cur r s' :
  (∀ key, key ∈ Dict.keys data → key ∈ update_fields self) →
  data ≠ [] →
  run (update_call self id data).1 (update_call self id data).2 (db cur)
    = inr (r, s') →
  ∃ context,
    (perform_update self id data cur).1 = Return (Some context) ∧
    (context = ∅ ↔ ∀ key, key ∈ Dict.keys data → key ∉ retrieve_fields self).
Proof.
  intros Hknown Hdata Hrun.
  assert (¬ (length (fields_values (update_fields self) data) ≤ 0)%nat) as Hlen.
  { destruct data as [| [k v] data]; [done |].
    apply (fields_values_nonempty _ _ k); [left | apply Hknown; left]. }
  rewrite perform_update_known; [| by apply unknown_fields_none | done].
  rewrite Hrun. eexists. split; [done |].
  rewrite <- dom_empty_iff_L, comprehension_dom, list_to_set_elements_L.
  split.
  - intros Hempty key Hin Hretrieve.
    apply (not_elem_of_empty (C:=gset string) key). rewrite <- Hempty.
    by apply elem_of_intersection; rewrite !elem_of_list_to_set.
  - intros Hnone. apply set_eq. intros key.
    rewrite elem_of_intersection, !elem_of_list_to_set. split.
    + intros [Hretrieve Hin]. by destruct (Hnone key).
    + by intros ?%not_elem_of_empty.
Qed.

(** X5. The order in which the keywords of an update are written does not
    matter, as long as the renderer of the SET clause gives the same text for
    both orders: the statement, its parameters, the outcome and the cursor
    are the same. *)
Theorem perform_update_keyword_order id data data' cur :
  NoDup (Dict.keys data) → data ≡ₚ data' →
  for_update_query (update_fields self) data
    = for_update_query (update_fields self) data' →
  perform_update self id data cur = perform_update self id data' cur.
Proof.
  intros Hnodup Hperm Hset.
  assert (update_call self id data = update_call self id data') as Hcall.
  { unfold update_call.
    by rewrite Hset, (fields_values_Permutation _ data data'). }
  destruct (decide (0 < size (list_to_set (Dict.keys data)
                                ∖ list_to_set (update_fields self)
                              : gset string))) as [Hpos | Hnone].
  { rewrite (perform_update_unknown self id data) by done.
    rewrite (keys_set_Permutation data data') in Hpos |- * by done.
    by rewrite perform_update_unknown. }
  destruct (decide (length (fields_values (update_fields self) data) ≤ 0)%nat)
    as [Hlen | Hlen].
  { rewrite (perform_update_nothing self id data) by done.
    rewrite (keys_set_Permutation data data') in Hnone by done.
    rewrite (fields_values_Permutation _ data data') in Hlen by done.
    by rewrite perform_update_nothing. }
  rewrite (perform_update_known self id data) by done.
  rewrite Hcall, (comprehension_Permutation _ data data') by done.
  rewrite (keys_set_Permutation data data') in Hnone |- * by done.
  rewrite (fields_values_Permutation _ data data') in Hlen by done.
  by rewrite perform_update_known.
Qed.

End Updates.

(** ** What reaches the cursor *)

Section Statements.
Context {S : Type} `{Database S} `{Placeholder}.
Variable self : Schema.
Implicit Types (cur : Cursor S) (data where_kwargs : kwargs) (id : Z).
Implicit Types (names : gset string) (project_fields : list string).

Lemma filter_all (P : string → Prop) `{!∀ x, Decision (P x)} (l : list string) :
  (∀ x, x ∈ l → P x) → filter P l = l.
Proof.
  induction l as [| x l IH]; intros Hall; [done |].
  rewrite filter_cons_True by (apply Hall; left).
  f_equal. apply IH. intros y Hy. apply Hall. by right.
Qed.

(** The statements each method has the cursor execute. *)
Lemma perform_create_executed {T} (return_type : option (pydict → T)) data cur :
  executed (perform_create self return_type data cur).2
    = executed cur
        ++ if decide (0 < size (list_to_set (Dict.keys data)
                                  ∖ list_to_set (create_fields self)
                                : gset string))
           then [] else [create_call self data].
Proof.
  case_decide as Hsize.
  - rewrite perform_create_unknown by done. simpl. by rewrite app_nil_r.
  - rewrite perform_create_known by done.
    by destruct (run _ _ (db cur)) as [msg | [r s']].
Qed.

Lemma perform_retrieve_executed {T} (return_type : option (pydict → T))
    project_fields where_kwargs cur :
  executed (perform_retrieve self return_type project_fields where_kwargs cur).2
    = executed cur
        ++ if decide (0 < size (list_to_set project_fields
                                  ∖ list_to_set (retrieve_fields self)
                                : gset string)
                      ∨ 0 < size (list_to_set (Dict.keys where_kwargs)
                                    ∖ list_to_set (retrieve_fields self)
                                  : gset string))
           then []
           else [retrieve_call self (projected_fields self project_fields)
                   where_kwargs].
Proof.
  destruct (decide (0 < size (list_to_set project_fields
                                ∖ list_to_set (retrieve_fields self)
                              : gset string))) as [Hpos | Hnone].
  { rewrite perform_retrieve_unknown, decide_True by auto.
    simpl. by rewrite app_nil_r. }
  destruct (decide (0 < size (list_to_set (Dict.keys where_kwargs)
                                ∖ list_to_set (retrieve_fields self)
                              : gset string))) as [Hpos | Hnone_where].
  { rewrite perform_retrieve_unknown_where, decide_True by auto.
    simpl. by rewrite app_nil_r. }
  rewrite perform_retrieve_known, decide_False by tauto.
  by destruct (run _ _ (db cur)) as [msg | [r s']].
Qed.

Lemma perform_update_executed id data cur :
  executed (perform_update self id data cur).2
    = executed cur
        ++ if decide (0 < size (list_to_set (Dict.keys data)
                                  ∖ list_to_set (update_fields self)
                                : gset string)
                      ∨ (length (fields_values (update_fields self) data) ≤ 0)%nat)
           then [] else [update_call self id data].
Proof.
  destruct (decide (0 < size (list_to_set (Dict.keys data)
                                ∖ list_to_set (update_fields self)
                              : gset string))) as [Hpos | Hnone].
  { rewrite perform_update_unknown, decide_True by auto.
    simpl. by rewrite app_nil_r. }
  destruct (decide (length (fields_values (update_fields self) data) ≤ 0)%nat)
    as [Hlen | Hlen].
  { rewrite perform_update_nothing, decide_True by auto.
    simpl. by rewrite app_nil_r. }
  rewrite perform_update_known, decide_False by tauto.
  by destruct (run _ _ (db cur)) as [msg | [r s']].
Qed.

Lemma perform_delete_executed id cur :
  executed (perform_delete self id cur).2 = executed cur ++ [delete_call self id].
Proof.
  rewrite perform_delete_eq. by destruct (run _ _ (db cur)) as [msg | [r s']].
Qed.

(** X6. A create with known keys sends an INSERT whose columns are the
    fields of [create_fields] that the data has, in declared order whatever
    the order of the data, with one mark asked for per column and the
    data's value for the i-th column as i-th parameter; when the data has
    every field of [create_fields], the columns are [create_fields]. *)
Theorem perform_create_columns {T} (return_type : option (pydict → T)) data cur :
  (∀ key, key ∈ Dict.keys data → key ∈ create_fields self) →
  ∃ columns params,
    executed (perform_create self return_type data cur).2
      = executed cur
          ++ [(insert_statement self (join ", " columns)
                 (for_create_query (length columns)), Some params)] ∧
    columns `sublist_of` create_fields self ∧
    (∀ key, key ∈ columns ↔ key ∈ create_fields self ∧ key ∈ Dict.keys data) ∧
    length params = length columns ∧
    (∀ i key, columns !! i = Some key → params !! i = Dict.lookup key data) ∧
    ((∀ key, key ∈ create_fields self → key ∈ Dict.keys data) →
       columns = create_fields self).
Proof.
  intros Hknown%unknown_fields_none.
  exists (valid_fields (create_fields self) data),
         (fields_values (create_fields self) data).
  assert (∀ key, key ∈ valid_fields (create_fields self) data
                 ↔ key ∈ create_fields self ∧ key ∈ Dict.keys data) as Hkeys.
  { intros key. unfold valid_fields. rewrite list_elem_of_filter.
    unfold Dict.contains. tauto. }
  split.
  { rewrite perform_create_executed, decide_False by done.
    unfold create_call, fields_values. by rewrite length_fmap. }
  split; [apply sublist_filter |]. split; [done |].
  split; [unfold fields_values; by rewrite length_fmap |]. split.
  - intros i key Hi. unfold fields_values. rewrite list_lookup_fmap, Hi. simpl.
    symmetry. apply lookup_get. by apply Hkeys, list_elem_of_lookup_2 with i.
  - intros Hall. by apply filter_all.
Qed.

(** X4. The order in which the keywords of a create are written does not
    matter: the statement, its parameters, the outcome and the cursor are
    the same. *)
Theorem perform_create_keyword_order {T} (return_type : option (pydict → T))
    data data' cur :
  NoDup (Dict.keys data) → data ≡ₚ data' →
  perform_create self return_type data cur
    = perform_create self return_type data' cur.
Proof.
  intros Hnodup Hperm.
  assert (create_call self data = create_call self data') as Hcall.
  { unfold create_call.
    by rewrite (valid_fields_Permutation _ data data'),
               (fields_values_Permutation _ data data'). }
  assert (∀ v, create_context self data v = create_context self data' v) as Hctx.
  { intros v. unfold create_context.
    by rewrite (comprehension_Permutation _ data data'). }
  destruct (decide (0 < size (list_to_set (Dict.keys data)
                                ∖ list_to_set (create_fields self)
                              : gset string))) as [Hpos | Hnone].
  - rewrite (perform_create_unknown self return_type data) by done.
    rewrite (keys_set_Permutation data data') in Hpos |- * by done.
    by rewrite perform_create_unknown.
  - rewrite (perform_create_known self return_type data) by done.
    rewrite (keys_set_Permutation data data') in Hnone by done.
    rewrite (perform_create_known self return_type data') by done.
    rewrite Hcall. destruct (run _ _ (db cur)) as [msg | [r s']]; [done |].
    by rewrite Hctx.
Qed.

(** X7. The text of the statements of [perform_create], [perform_retrieve]
    and [perform_delete] is made from the names of the keywords only: calls
    that differ in the values given, or in the identifier, have the cursor
    execute the same text; the values travel as parameters. *)
Theorem statement_text_ignores_values {T} (return_type : option (pydict → T))
    data data' project_fields where_kwargs where_kwargs' id id' cur :
  Dict.keys data = Dict.keys data' →
  Dict.keys where_kwargs = Dict.keys where_kwargs' →
  (executed (perform_create self return_type data cur).2).*1
    = (executed (perform_create self return_type data' cur).2).*1 ∧
  (executed (perform_retrieve self return_type project_fields where_kwargs
               cur).2).*1
    = (executed (perform_retrieve self return_type project_fields where_kwargs'
                   cur).2).*1 ∧
  (executed (perform_delete self id cur).2).*1
    = (executed (perform_delete self id' cur).2).*1.
Proof.
  intros Hdata Hwhere. split; [| split].
  - rewrite !perform_create_executed, <- Hdata.
    case_decide; [done |]. rewrite !fmap_app. f_equal. simpl.
    unfold fields_values.
    by rewrite !length_fmap, (valid_fields_keys _ data data').
  - rewrite !perform_retrieve_executed, <- Hwhere.
    case_decide; [done |]. rewrite !fmap_app. f_equal. simpl.
    unfold retrieve_call. rewrite <- Hwhere.
    by destruct (Dict.keys where_kwargs).
  - by rewrite !perform_delete_executed, !fmap_app.
Qed.

(** X8. A retrieve that passes validation sends, for filters given one per
    keyword, the filter values in the order the filters were written as its
    parameters, and no parameter tuple at all when there is no filter. *)
Theorem perform_retrieve_where_values {T} (return_type : option (pydict → T))
    project_fields where_kwargs cur :
  NoDup (Dict.keys where_kwargs) →
  (∀ key, key ∈ project_fields → key ∈ retrieve_fields self) →
  (∀ key, key ∈ Dict.keys where_kwargs → key ∈ retrieve_fields self) →
  ∃ query,
    executed (perform_retrieve self return_type project_fields where_kwargs
                cur).2
      = executed cur
          ++ [(query,
               match where_kwargs with
               | [] => None
               | _ => Some (where_kwargs.*2)
               end)].
Proof.
  intros Hnodup Hknown%unknown_fields_none Hwhere%unknown_fields_none.
  rewrite perform_retrieve_executed, decide_False by tauto.
  unfold retrieve_call.
  destruct where_kwargs as [| [k v] where_kwargs]; [by eexists |].
  change (Dict.keys ((k, v) :: where_kwargs))
    with (k :: Dict.keys where_kwargs) in *.
  eexists. do 3 f_equal.
  by apply (f_equal Some), (get_keys_values ((k, v) :: where_kwargs)).
Qed.

(** X9. The field-validation error of a retrieve never carries an empty set
    nor a retrievable field, and the projection is checked first: with an
    unknown projection field the error carries the unknown projection
    fields only, whatever the filters; the unknown filter keys are carried
    only when the projection is clean. *)
Theorem perform_retrieve_error_names {T} (return_type : option (pydict → T))
    project_fields where_kwargs cur names :
  (perform_retrieve self return_type project_fields where_kwargs cur).1
    = Raise (AttributeError names) →
  names ≠ ∅ ∧
  (∀ key, key ∈ names → key ∉ retrieve_fields self) ∧
  ((∃ key, key ∈ project_fields ∧ key ∉ retrieve_fields self) →
     ∀ key, key ∈ names ↔ key ∈ project_fields ∧ key ∉ retrieve_fields self) ∧
  ((∀ key, key ∈ project_fields → key ∈ retrieve_fields self) →
     ∀ key, key ∈ names
            ↔ key ∈ Dict.keys where_kwargs ∧ key ∉ retrieve_fields self).
Proof.
  destruct (decide (0 < size (list_to_set project_fields
                                ∖ list_to_set (retrieve_fields self)
                              : gset string))) as [Hpos | Hnone].
  { rewrite perform_retrieve_unknown by done. intros [= <-].
    split; [by apply unknown_fields_nonempty, unknown_fields_pos |].
    split; [| split].
    - intros key [_ Hout]%elem_of_difference.
      by rewrite elem_of_list_to_set in Hout.
    - intros _ key. by rewrite elem_of_difference, !elem_of_list_to_set.
    - by intros ?%unknown_fields_none. }
  destruct (decide (0 < size (list_to_set (Dict.keys where_kwargs)
                                ∖ list_to_set (retrieve_fields self)
                              : gset string))) as [Hpos | Hnone_where].
  { rewrite perform_retrieve_unknown_where by done. intros [= <-].
    split; [by apply unknown_fields_nonempty, unknown_fields_pos |].
    split; [| split].
    - intros key [_ Hout]%elem_of_difference.
      by rewrite elem_of_list_to_set in Hout.
    - by intros ?%unknown_fields_pos.
    - intros _ key. by rewrite elem_of_difference, !elem_of_list_to_set. }
  rewrite perform_retrieve_known by done.
  by destruct (run _ _ (db cur)) as [msg | [r s']].
Qed.

End Statements.

(** ** One statement per call *)

Section OneStatement.
Context {S : Type} `{Database S} `{Placeholder}.
Variable self : Schema.
Implicit Types (cur : Cursor S) (data where_kwargs : kwargs) (id : Z).
Implicit Types (project_fields : list string).

Lemma app_changes {A} (l : list A) (x : A) : l ++ [x] ≠ l.
Proof.
  intros Heq. apply (f_equal length) in Heq. rewrite length_app in Heq.
  simpl in Heq. lia.
Qed.

(** X10. No call has the cursor execute more than one statement, and none
    touches the statements executed before it.  A create or a retrieve sends
    its statement exactly when its keys are all known, an update exactly
    when its keys are all known and there is at least one, a delete
    always. *)
Theorem one_statement_per_call {T U} (return_type : option (pydict → T))
    (return_type' : option (pydict → U)) data project_fields where_kwargs
    id data' id' cur :
  let after_create := (perform_create self return_type data cur).2 in
  let after_retrieve :=
    (perform_retrieve self return_type' project_fields where_kwargs cur).2 in
  let after_update := (perform_update self id data' cur).2 in
  let after_delete := (perform_delete self id' cur).2 in
  (executed cur `prefix_of` executed after_create ∧
   (length (executed after_create) ≤ Datatypes.S (length (executed cur)))%nat ∧
   (executed after_create = executed cur ++ [create_call self data]
      ↔ ∀ key, key ∈ Dict.keys data → key ∈ create_fields self)) ∧
  (executed cur `prefix_of` executed after_retrieve ∧
   (length (executed after_retrieve) ≤ Datatypes.S (length (executed cur)))%nat ∧
   (executed after_retrieve
      = executed cur
          ++ [retrieve_call self (projected_fields self project_fields)
                where_kwargs]
      ↔ (∀ key, key ∈ project_fields → key ∈ retrieve_fields self)
        ∧ ∀ key, key ∈ Dict.keys where_kwargs → key ∈ retrieve_fields self)) ∧
  (executed cur `prefix_of` executed after_update ∧
   (length (executed after_update) ≤ Datatypes.S (length (executed cur)))%nat ∧
   (executed after_update = executed cur ++ [update_call self id data']
      ↔ (∀ key, key ∈ Dict.keys data' → key ∈ update_fields self)
        ∧ data' ≠ [])) ∧
  executed after_delete = executed cur ++ [delete_call self id'].
Proof.
  intros after_create after_retrieve after_update after_delete.
  subst after_create after_retrieve after_update after_delete.
  rewrite perform_create_executed, perform_retrieve_executed,
    perform_update_executed, perform_delete_executed.
  split; [| split; [| split; [| done]]].
  - case_decide as Hsize.
    + rewrite app_nil_r. split; [done |]. split; [lia |].
      split; [by intros Heq; symmetry in Heq; apply app_changes in Heq |].
      by intros ?%unknown_fields_none.
    + split; [by apply prefix_app_r |]. rewrite length_app. simpl.
      split; [lia |]. split; [by intros _; apply unknown_fields_none | done].
  - case_decide as Hsize.
    + rewrite app_nil_r. split; [done |]. split; [lia |].
      split; [by intros Heq; symmetry in Heq; apply app_changes in Heq |].
      intros [?%unknown_fields_none ?%unknown_fields_none]. tauto.
    + split; [by apply prefix_app_r |]. rewrite length_app. simpl.
      split; [lia |]. split; [| done].
      intros _. split; apply unknown_fields_none; tauto.
  - case_decide as Hsize.
    + rewrite app_nil_r. split; [done |]. split; [lia |].
      split; [by intros Heq; symmetry in Heq; apply app_changes in Heq |].
      intros [Hknown Hdata]. exfalso.
      destruct Hsize as [Hpos | Hlen]; [by apply unknown_fields_none in Hknown |].
      destruct data' as [| [k v] data']; [done |].
      apply (fields_values_nonempty (update_fields self) ((k, v) :: data') k);
        [left | apply Hknown; left | done].
    + split; [by apply prefix_app_r |]. rewrite length_app. simpl.
      split; [lia |]. split; [| done].
      intros _. split; [apply unknown_fields_none; tauto |].
      intros ->. apply Hsize. right. unfold fields_values.
      rewrite valid_fields_nil; [simpl; lia |]. by intros key ?%elem_of_nil.
Qed.

(** X11. When the cursor's [execute] raises, each method raises the same
    exception and leaves the cursor as [execute] left it: it does not read
    [lastrowid], take rows, or send anything more. *)
Theorem execute_failure_propagates {T U} (return_type : option (pydict → T))
    (return_type' : option (pydict → U)) data project_fields where_kwargs
    id data' id' cur :
  ((∀ key, key ∈ Dict.keys data → key ∈ create_fields self) →
   ∀ e cur',
     execute (create_call self data).1 (create_call self data).2 cur
       = (Raise e, cur') →
     perform_create self return_type data cur = (Raise e, cur')) ∧
  ((∀ key, key ∈ project_fields → key ∈ retrieve_fields self) →
   (∀ key, key ∈ Dict.keys where_kwargs → key ∈ retrieve_fields self) →
   ∀ e cur',
     execute
       (retrieve_call self (projected_fields self project_fields)
          where_kwargs).1
       (retrieve_call self (projected_fields self project_fields)
          where_kwargs).2 cur = (Raise e, cur') →
     perform_retrieve self return_type' project_fields where_kwargs cur
       = (Raise e, cur')) ∧
  ((∀ key, key ∈ Dict.keys data' → key ∈ update_fields self) →
   data' ≠ [] →
   ∀ e cur',
     execute (update_call self id data').1 (update_call self id data').2 cur
       = (Raise e, cur') →
     perform_update self id data' cur = (Raise e, cur')) ∧
  (∀ e cur',
     execute (delete_call self id').1 (delete_call self id').2 cur
       = (Raise e, cur') →
     perform_delete self id' cur = (Raise e, cur')).
Proof.
  split; [| split; [| split]].
  - intros Hknown%unknown_fields_none e cur'.
    rewrite perform_create_known, execute_eq by done.
    destruct (run _ _ (db cur)) as [msg | [r s']]; [| done].
    by intros [= <- <-].
  - intros Hknown%unknown_fields_none Hwhere%unknown_fields_none e cur'.
    rewrite perform_retrieve_known, execute_eq by done.
    destruct (retrieve_call self _ where_kwargs) as [query params]. simpl.
    destruct (run _ _ (db cur)) as [msg | [r s']]; [| done].
    by intros [= <- <-].
  - intros Hknown Hdata e cur'.
    assert (¬ (length (fields_values (update_fields self) data') ≤ 0)%nat)
      as Hlen.
    { destruct data' as [| [k v] data']; [done |].
      apply (fields_values_nonempty _ _ k); [left | apply Hknown; left]. }
    rewrite perform_update_known, execute_eq;
      [| by apply unknown_fields_none | done].
    destruct (run _ _ (db cur)) as [msg | [r s']]; [| done].
    by intros [= <- <-].
  - intros e cur'. rewrite perform_delete_eq, execute_eq.
    destruct (run _ _ (db cur)) as [msg | [r s']]; [| done].
    by intros [= <- <-].
Qed.

End OneStatement.

(** ** The further properties on the [user] table *)

Section FurtherExamples.
#[local] Existing Instance spec_placeholder.

Local Ltac known_keys :=
  apply Forall_forall; unfold Dict.keys; simpl;
  repeat (first [apply Forall_nil_2 | apply Forall_cons_2]);
  vm_compute; repeat constructor.

Local Ltac distinct_keys :=
  unfold Dict.keys; simpl; repeat (apply NoDup_cons_2; [vm_compute; intros Hin;
    repeat (apply elem_of_cons in Hin as [[=] | Hin]);
    by apply elem_of_nil in Hin |]); apply NoDup_nil_2.

Lemma perform_update_empty_mapping_witness :
  (∀ key, key ∈ Dict.keys new_password → key ∈ update_fields user_schema) ∧
  new_password ≠ [] ∧
  run (update_call user_schema 7 new_password).1
      (update_call user_schema 7 new_password).2
      (db (fresh_cursor [no_row_matched])) = inr (no_row_matched, []) ∧
  ∃ context,
    (perform_update user_schema 7 new_password
       (fresh_cursor [no_row_matched])).1 = Return (Some context) ∧
    (context = ∅
     ↔ ∀ key, key ∈ Dict.keys new_password → key ∉ retrieve_fields user_schema).
Proof.
  assert (∀ key, key ∈ Dict.keys new_password → key ∈ update_fields user_schema)
    as Hknown by known_keys.
  assert (new_password ≠ []) as Hdata by discriminate.
  split; [exact Hknown |]. split; [exact Hdata |]. split; [reflexivity |].
  exact (perform_update_empty_mapping user_schema 7 new_password
           (fresh_cursor [no_row_matched]) no_row_matched [] Hknown Hdata
           eq_refl).
Defined.

Lemma perform_create_keyword_order_witness :
  NoDup (Dict.keys ann) ∧ ann ≡ₚ ann_reordered ∧
  perform_create (T:=unit) user_schema None ann (fresh_cursor [inserted])
    = perform_create user_schema None ann_reordered (fresh_cursor [inserted]).
Proof.
  assert (NoDup (Dict.keys ann)) as Hnodup by distinct_keys.
  assert (ann ≡ₚ ann_reordered) as Hperm by apply perm_swap.
  split; [exact Hnodup |]. split; [exact Hperm |].
  exact (perform_create_keyword_order user_schema (T:=unit) None ann
           ann_reordered (fresh_cursor [inserted]) Hnodup Hperm).
Defined.

Lemma perform_update_keyword_order_witness :
  NoDup (Dict.keys new_credentials) ∧
  new_credentials ≡ₚ credentials_reordered ∧
  for_update_query (update_fields user_schema) new_credentials
    = for_update_query (update_fields user_schema) credentials_reordered ∧
  perform_update user_schema 7 new_credentials (fresh_cursor [no_row_matched])
    = perform_update user_schema 7 credentials_reordered
        (fresh_cursor [no_row_matched]).
Proof.
  assert (NoDup (Dict.keys new_credentials)) as Hnodup by distinct_keys.
  assert (new_credentials ≡ₚ credentials_reordered) as Hperm by apply perm_swap.
  split; [exact Hnodup |]. split; [exact Hperm |]. split; [reflexivity |].
  exact (perform_update_keyword_order user_schema 7 new_credentials
           credentials_reordered (fresh_cursor [no_row_matched]) Hnodup Hperm
           eq_refl).
Defined.

Lemma perform_create_columns_witness :
  (∀ key, key ∈ Dict.keys ann_reordered → key ∈ create_fields user_schema) ∧
  ∃ columns params,
    executed (perform_create (T:=unit) user_schema None ann_reordered
                (fresh_cursor [inserted])).2
      = executed (fresh_cursor [inserted])
          ++ [(insert_statement user_schema (join ", " columns)
                 (for_create_query (length columns)), Some params)] ∧
    columns `sublist_of` create_fields user_schema ∧
    (∀ key, key ∈ columns
            ↔ key ∈ create_fields user_schema ∧ key ∈ Dict.keys ann_reordered) ∧
    length params = length columns ∧
    (∀ i key, columns !! i = Some key →
              params !! i = Dict.lookup key ann_reordered) ∧
    ((∀ key, key ∈ create_fields user_schema → key ∈ Dict.keys ann_reordered) →
       columns = create_fields user_schema).
Proof.
  assert (∀ key, key ∈ Dict.keys ann_reordered
                 → key ∈ create_fields user_schema) as Hknown by known_keys.
  split; [exact Hknown |].
  exact (perform_create_columns user_schema (T:=unit) None ann_reordered
           (fresh_cursor [inserted]) Hknown).
Defined.

Lemma statement_text_ignores_values_witness :
  Dict.keys ann = Dict.keys bob ∧
  Dict.keys new_email = Dict.keys other_email ∧
  (executed (perform_create (T:=unit) user_schema None ann
               (fresh_cursor [inserted])).2).*1
    = (executed (perform_create (T:=unit) user_schema None bob
                   (fresh_cursor [inserted])).2).*1 ∧
  (executed (perform_retrieve (T:=unit) user_schema None ["id"] new_email
               (fresh_cursor [inserted])).2).*1
    = (executed (perform_retrieve (T:=unit) user_schema None ["id"] other_email
                   (fresh_cursor [inserted])).2).*1 ∧
  (executed (perform_delete user_schema 7 (fresh_cursor [inserted])).2).*1
    = (executed (perform_delete user_schema 8 (fresh_cursor [inserted])).2).*1.
Proof.
  split; [reflexivity |]. split; [reflexivity |].
  exact (statement_text_ignores_values user_schema (T:=unit) None ann bob
           ["id"] new_email other_email 7 8 (fresh_cursor [inserted])
           eq_refl eq_refl).
Defined.

Lemma perform_retrieve_where_values_witness :
  NoDup (Dict.keys by_name_and_email) ∧
  (∀ key, key ∈ ["id"] → key ∈ retrieve_fields user_schema) ∧
  (∀ key, key ∈ Dict.keys by_name_and_email
          → key ∈ retrieve_fields user_schema) ∧
  ∃ query,
    executed (perform_retrieve (T:=unit) user_schema None ["id"]
                by_name_and_email (fresh_cursor [two_rows])).2
      = executed (fresh_cursor [two_rows])
          ++ [(query, Some [PyStr "ann"; PyStr "ann@example.org"])].
Proof.
  assert (NoDup (Dict.keys by_name_and_email)) as Hnodup by distinct_keys.
  assert (∀ key, key ∈ ["id"] → key ∈ retrieve_fields user_schema)
    as Hknown by known_keys.
  assert (∀ key, key ∈ Dict.keys by_name_and_email
                 → key ∈ retrieve_fields user_schema) as Hwhere by known_keys.
  split; [exact Hnodup |]. split; [exact Hknown |]. split; [exact Hwhere |].
  exact (perform_retrieve_where_values user_schema (T:=unit) None ["id"]
           by_name_and_email (fresh_cursor [two_rows]) Hnodup Hknown Hwhere).
Defined.

Lemma perform_retrieve_error_names_witness :
  (perform_retrieve (T:=unit) user_schema None ["password"]
     by_name_and_password (fresh_cursor [two_rows])).1
    = Raise (AttributeError {["password"]}) ∧
  ({["password"]} : gset string) ≠ ∅ ∧
  (∀ key, key ∈ ({["password"]} : gset string)
          → key ∉ retrieve_fields user_schema) ∧
  ((∃ key, key ∈ ["password"] ∧ key ∉ retrieve_fields user_schema) →
     ∀ key, key ∈ ({["password"]} : gset string)
            ↔ key ∈ ["password"] ∧ key ∉ retrieve_fields user_schema) ∧
  ((∀ key, key ∈ ["password"] → key ∈ retrieve_fields user_schema) →
     ∀ key, key ∈ ({["password"]} : gset string)
            ↔ key ∈ Dict.keys by_name_and_password
              ∧ key ∉ retrieve_fields user_schema).
Proof.
  assert ((perform_retrieve (T:=unit) user_schema None ["password"]
             by_name_and_password (fresh_cursor [two_rows])).1
          = Raise (AttributeError {["password"]})) as Hraise
    by (vm_compute; reflexivity).
  split; [exact Hraise |].
  exact (perform_retrieve_error_names user_schema (T:=unit) None ["password"]
           by_name_and_password (fresh_cursor [two_rows]) {["password"]}
           Hraise).
Defined.

Lemma execute_failure_propagates_witness :
  (∀ key, key ∈ Dict.keys ann → key ∈ create_fields user_schema) ∧
  execute (create_call user_schema ann).1 (create_call user_schema ann).2
    broken_cursor
    = (Raise (DatabaseError "no reply left"),
       MkCursor [] PyNone (-1) [] [create_call user_schema ann]) ∧
  perform_create (T:=unit) user_schema None ann broken_cursor
    = (Raise (DatabaseError "no reply left"),
       MkCursor [] PyNone (-1) [] [create_call user_schema ann]).
Proof.
  assert (∀ key, key ∈ Dict.keys ann → key ∈ create_fields user_schema)
    as Hknown by known_keys.
  split; [exact Hknown |]. split; [reflexivity |].
  exact (proj1 (execute_failure_propagates user_schema (T:=unit) (U:=unit)
                  None None ann [] [] 7 [] 7 broken_cursor)
           Hknown _ _ eq_refl).
Defined.

End FurtherExamples.
